(** * Synchronized capture-and-classification pipeline

    A shallow embedding of the capture, synchronisation and classification
    core of the audio/video activity monitor:

    - [server/capture/pyaudio_capture.py]   the circular audio buffer,
    - [server/capture/stream_processor.py]  audio normalisation and features,
    - [server/capture/sync_manager.py]      the synchronised snapshot,
    - [server/analysis/activity_classifier.py] the rule cascade.

    Conventions.  Python floats are modelled by [fval]: an exact rational, or
    one of the three non-finite IEEE values.  Rounding is abstracted (sums,
    products and quotients are exact) and signed zeros are identified; float
    literals such as [0.1] stand for the rational they denote.  Clock readings
    ([time.time()]) are inputs of the operations that take them.  A block run
    under [with lock:] is one atomic transition. *)

From Stdlib Require Import ZArith QArith Qabs Qminmax Lia.
From stdpp Require Import base option list strings gmap fin_maps.

Local Open Scope Z_scope.

(** ** Floating-point values *)

Module Float.

Inductive fval : Type :=
| Fin (q : Q)
| PInf
| NInf
| NaN.

Definition Qltb (a b : Q) : bool := if Qlt_le_dec a b then true else false.

(** [x < y] on floats: every comparison with [NaN] is false. *)
Definition flt (x y : fval) : bool :=
  match x, y with
  | NaN, _ | _, NaN => false
  | Fin a, Fin b => Qltb a b
  | NInf, NInf => false
  | NInf, _ => true
  | Fin _, PInf => true
  | Fin _, NInf => false
  | PInf, _ => false
  end.

Definition fgt (x y : fval) : bool := flt y x.

(** [x >= y] and [x <= y]; false as soon as one side is [NaN]. *)
Definition fle (x y : fval) : bool :=
  match x, y with
  | NaN, _ | _, NaN => false
  | _, _ => negb (flt y x)
  end.

Definition fge (x y : fval) : bool := fle y x.

Definition fadd (x y : fval) : fval :=
  match x, y with
  | NaN, _ | _, NaN => NaN
  | PInf, NInf | NInf, PInf => NaN
  | PInf, _ | _, PInf => PInf
  | NInf, _ | _, NInf => NInf
  | Fin a, Fin b => Fin (a + b)
  end.

Definition fneg (x : fval) : fval :=
  match x with
  | Fin a => Fin (- a)
  | PInf => NInf
  | NInf => PInf
  | NaN => NaN
  end.

Definition fsub (x y : fval) : fval := fadd x (fneg y).

(** [x ** 2] and [um.multiply(x, x)]. *)
Definition fsquare (x : fval) : fval :=
  match x with
  | Fin a => Fin (a * a)
  | PInf | NInf => PInf
  | NaN => NaN
  end.

Definition fabs (x : fval) : fval :=
  match x with
  | Fin a => Fin (Qabs a)
  | PInf | NInf => PInf
  | NaN => NaN
  end.

(** Division of a float by a positive count ([... / len(audio_data)]). *)
Definition fdiv_count (x : fval) (n : nat) : fval :=
  match x with
  | Fin a => Fin (a / inject_Z (Z.of_nat n))
  | other => other
  end.

(** [np.maximum]: a [NaN] operand is propagated. *)
Definition fmax (x y : fval) : fval :=
  match x, y with
  | NaN, _ | _, NaN => NaN
  | _, _ => if flt x y then y else x
  end.

(** [np.signbit]: true for negative values. *)
Definition signbit (x : fval) : bool :=
  match x with
  | Fin a => Qltb a 0
  | NInf => true
  | PInf | NaN => false
  end.

(** Python's builtin [min(a, b)]: [b] replaces [a] only when [b < a]. *)
Definition py_min (a b : fval) : fval := if flt b a then b else a.

(** [int(x)] on a finite float: truncation toward zero. *)
Definition py_int (q : Q) : Z := Z.quot (Qnum q) (Z.pos (Qden q)).

(** True division of two integers, as numpy computes [int16 / int16] in
    double precision: a zero divisor gives [NaN] or an infinity (with a
    warning), never an exception. *)
Definition int_true_divide (x p : Z) : fval :=
  if Z.eqb p 0 then
    (if Z.eqb x 0 then NaN else if Z.ltb 0 x then PInf else NInf)
  else Fin (inject_Z x / inject_Z p).

(** A float lies in the closed interval [[-1, 1]]. *)
Definition in_unit_range (x : fval) : bool :=
  fle (Fin (-1)) x && fle x (Fin 1).

End Float.
Export Float.

(** ** Feature dictionaries and activity results *)

Abbreviation features := (gmap string fval).

(** [d.get(key, 0)] *)
Definition dict_get (d : features) (key : string) : fval :=
  default (Fin 0) (d !! key).

(** Truth value of a dict: non-empty. *)
Definition truthy (d : features) : bool := negb (bool_decide (d = ∅)).

Record activity : Type := Activity {
  type : string;
  confidence : fval;
  timestamp : Z;
  duration : Z
}.

(** The labels of the source, under the names the specification gives them. *)
Module Label.
Definition idle : string := "inactif".
Definition video_call : string := "visioconférence".
Definition video_media : string := "vidéo".
Definition reading : string := "lecture".
Definition web_browsing : string := "navigation_web".
End Label.

(** ** pyaudio_capture.py: the circular audio buffer *)

Module PyAudioCapture.

(** A chunk is one row of the buffer: [chunk_size] signed 16-bit samples. *)
Abbreviation chunk := (list Z).

Record t : Type := Make {
  sample_rate : Z;
  chunk_size : Z;
  buffer_chunks : Z;
  audio_buffer : list chunk;
  buffer_index : Z;
  is_streaming : bool
}.

(** [int(a / b * c)] for non-negative integers, with the quotient exact. *)
Definition int_of_ratio (a c b : Z) : Z := Z.quot (a * c) b.

(** [__init__]: [buffer_chunks = int(sample_rate / chunk_size * buffer_seconds)]
    rows of zeros, write index 0, not streaming. *)
Definition init (sample_rate chunk_size buffer_seconds : Z) : t :=
  let buffer_chunks := int_of_ratio sample_rate buffer_seconds chunk_size in
  {| sample_rate := sample_rate;
     chunk_size := chunk_size;
     buffer_chunks := buffer_chunks;
     audio_buffer :=
       replicate (Z.to_nat buffer_chunks) (replicate (Z.to_nat chunk_size) 0);
     buffer_index := 0;
     is_streaming := false |}.

(** [start], when the device stream opens: the only effect on the fields
    modelled here is [is_streaming = True]. *)
Definition start (st : t) : t :=
  {| sample_rate := sample_rate st;
     chunk_size := chunk_size st;
     buffer_chunks := buffer_chunks st;
     audio_buffer := audio_buffer st;
     buffer_index := buffer_index st;
     is_streaming := true |}.

(** [self.audio_buffer[i] = audio_data]: numpy copies a row of the right
    length, repeats a single sample over the row, and raises otherwise. *)
Definition assign_row (row : nat) (audio_data : chunk) (i : nat)
    (buf : list chunk) : option (list chunk) :=
  if decide (length audio_data = row) then Some (<[i := audio_data]> buf)
  else match audio_data with
       | [x] => Some (<[i := replicate row x]> buf)
       | _ => None
       end.

(** [_audio_callback], lines 75-95; [None] when the row assignment raises. *)
Definition _audio_callback (st : t) (audio_data : chunk) : option t :=
  match assign_row (Z.to_nat (chunk_size st)) audio_data
          (Z.to_nat (buffer_index st)) (audio_buffer st) with
  | Some buf =>
      Some {| sample_rate := sample_rate st;
              chunk_size := chunk_size st;
              buffer_chunks := buffer_chunks st;
              audio_buffer := buf;
              buffer_index := (buffer_index st + 1) mod buffer_chunks st;
              is_streaming := is_streaming st |}
  | None => None
  end.

(** The slices [a[i:j]], [a[i:]] and [a[:j]] for indices within the array. *)
Definition slice {A} (a : list A) (i j : Z) : list A :=
  take (Z.to_nat j - Z.to_nat i) (drop (Z.to_nat i) a).
Definition slice_from {A} (a : list A) (i : Z) : list A := drop (Z.to_nat i) a.
Definition slice_to {A} (a : list A) (j : Z) : list A := take (Z.to_nat j) a.

(** [chunks_needed], lines 159-164. *)
Definition chunks_needed (st : t) (duration_ms : Z) : Z :=
  Z.min (int_of_ratio (sample_rate st) duration_ms (chunk_size st * 1000))
        (buffer_chunks st).

(** The rows selected under the lock, lines 166-177.  Python's [%] with a
    positive modulus is [Z.modulo]. *)
Definition latest_rows (st : t) (chunks_needed : Z) : list chunk :=
  let start_index := (buffer_index st - chunks_needed) mod buffer_chunks st in
  if start_index <? buffer_index st then
    slice (audio_buffer st) start_index (buffer_index st)
  else
    slice_from (audio_buffer st) start_index
      ++ slice_to (audio_buffer st) (buffer_index st).

(** [get_latest_audio], lines 147-182. *)
Definition get_latest_audio (st : t) (duration_ms : Z) : option (list Z) :=
  if negb (is_streaming st) then None
  else
    let audio_data := latest_rows st (chunks_needed st duration_ms) in
    let flat_data := concat audio_data in
    if 0 <? Z.of_nat (length flat_data) then Some flat_data else None.

(** The callbacks of a run of the device, oldest chunk first. *)
Fixpoint run_callbacks (st : t) (written : list chunk) : option t :=
  match written with
  | [] => Some st
  | c :: rest =>
      match _audio_callback st c with
      | Some st' => run_callbacks st' rest
      | None => None
      end
  end.

(** The logical stream of rows: the zero rows the buffer starts with, then
    every chunk written, in order of arrival. *)
Definition history (st0 : t) (written : list chunk) : list chunk :=
  audio_buffer st0 ++ written.

(** The [k] newest entries of a stream, oldest first. *)
Definition most_recent {A} (k : nat) (l : list A) : list A :=
  drop (length l - k) l.

(** The buffer read from the write index round to the write index. *)
Definition rotation (st : t) : list chunk :=
  drop (Z.to_nat (buffer_index st)) (audio_buffer st)
    ++ take (Z.to_nat (buffer_index st)) (audio_buffer st).

(** The shape every state of a running capture has. *)
Record well_formed (st : t) : Prop := WellFormed {
  wf_chunk_size : 0 < chunk_size st;
  wf_capacity : 0 < buffer_chunks st;
  wf_length : length (audio_buffer st) = Z.to_nat (buffer_chunks st);
  wf_index : 0 <= buffer_index st < buffer_chunks st;
  wf_rows : Forall (fun row => length row = Z.to_nat (chunk_size st)) (audio_buffer st)
}.

(** Two states of the same device: same parameters, same streaming flag. *)
Definition same_device (st st' : t) : Prop :=
  sample_rate st' = sample_rate st /\ chunk_size st' = chunk_size st
  /\ buffer_chunks st' = buffer_chunks st /\ is_streaming st' = is_streaming st.

End PyAudioCapture.

(** ** External libraries

    What the pipeline takes from PIL and numpy without defining it. *)

Class Imaging : Type := {
  (** a decoded image, [PIL.Image.Image] *)
  Frame : Type;
  (** [frame.resize(resolution, LANCZOS)] followed by
      [ImageEnhance.Contrast(_).enhance(1.2)]; [None] when PIL raises *)
  pil_resize_enhance : Frame -> option Frame;
  (** the [try] block of [_extract_video_features]: grayscale conversion and
      intensity statistics of the pixels, [{}] when it raises *)
  video_statistics : Frame -> features
}.

Class Numeric : Type := {
  (** [np.sqrt] on a non-negative finite float *)
  np_sqrt : Q -> Q
}.

(** ** stream_processor.py *)

Module StreamProcessor.

(** [np.abs] on [int16]: the result is wrapped to 16 bits, so the absolute
    value of [-32768] is [-32768]. *)
Definition wrap16 (x : Z) : Z := (x + 32768) mod 65536 - 32768.
Definition abs16 (x : Z) : Z := wrap16 (Z.abs x).

(** [np.max] of a non-empty integer array. *)
Definition max_of (x : Z) (xs : list Z) : Z := foldr Z.max x xs.

Definition peak (audio_data : list Z) : Z :=
  match map abs16 audio_data with
  | [] => 0
  | a :: rest => max_of a rest
  end.

(** [process_audio], lines 52-72.  The division warns on a zero divisor but
    does not raise, so the [except] branch is never entered. *)
Definition process_audio (audio_data : option (list Z)) : option (list fval) :=
  match audio_data with
  | None => None
  | Some xs =>
      if Nat.eqb (length xs) 0 then None
      else Some (map (fun x => int_true_divide x (peak xs)) xs)
  end.

Section Video.
Context `{Imaging}.

(** [process_video], lines 27-50: the original frame when PIL raises. *)
Definition process_video (frame : option Frame) : option Frame :=
  match frame with
  | None => None
  | Some f => Some (default f (pil_resize_enhance f))
  end.

End Video.

Section Audio.
Context `{Numeric}.

Definition np_sum (xs : list fval) : fval := foldr fadd (Fin 0) xs.

Definition np_mean (xs : list fval) : fval := fdiv_count (np_sum xs) (length xs).

Definition fsqrt (x : fval) : fval :=
  match x with
  | Fin a => if Qltb a 0 then NaN else Fin (np_sqrt a)
  | PInf => PInf
  | NInf | NaN => NaN
  end.

(** [np.std]: the square root of the mean squared deviation from the mean. *)
Definition np_std (xs : list fval) : fval :=
  let arrmean := np_mean xs in
  let x := map (fun v => fsub v arrmean) xs in
  fsqrt (fdiv_count (np_sum (map fsquare x)) (length xs)).

(** [np.max] of a non-empty float array. *)
Definition np_max (xs : list fval) : fval :=
  match xs with
  | [] => NaN
  | a :: rest => foldr fmax a rest
  end.

(** [np.diff] on a boolean array: [a[1:] != a[:-1]]. *)
Fixpoint np_diff (bs : list bool) : list bool :=
  match bs with
  | a :: (b :: _) as rest => xorb b a :: np_diff rest
  | _ => []
  end.

(** [np.sum] of a boolean array (after [np.abs], the identity on booleans). *)
Definition count_true (bs : list bool) : nat := length (filter (fun b => b = true) bs).

Definition count_to_float (n : nat) : fval := Fin (inject_Z (Z.of_nat n)).

(** [extract_audio_features], lines 129-167. *)
Definition extract_audio_features (audio_data : option (list fval)) : features :=
  match audio_data with
  | None => ∅
  | Some xs =>
      if Nat.eqb (length xs) 0 then ∅
      else
        let mean_amplitude := np_mean xs in
        let std_amplitude := np_std xs in
        let max_amplitude := np_max (map fabs xs) in
        let energy := fdiv_count (np_sum (map fsquare xs)) (length xs) in
        let zero_crossings :=
          fdiv_count (count_to_float (count_true (np_diff (map signbit xs))))
                     (length xs) in
        <["mean_amplitude" := mean_amplitude]>
        (<["std_amplitude" := std_amplitude]>
        (<["max_amplitude" := max_amplitude]>
        (<["energy" := energy]>
        (<["zero_crossing_rate" := zero_crossings]> ∅))))
  end.

End Audio.

End StreamProcessor.

(** ** obs_capture.py: the latest captured frame *)

Module OBSCapture.
Section OBS.
Context `{Imaging}.

Record t : Type := Make {
  current_frame : option Frame;
  frame_time : Q
}.

(** [get_current_frame], read under [frame_lock]. *)
Definition get_current_frame (obs : t) : option Frame * Q :=
  (current_frame obs, frame_time obs).

End OBS.
End OBSCapture.

(** ** sync_manager.py: the synchronised snapshot *)

Module SyncManager.
Section Sync.
Context `{Imaging}.

Record t : Type := Make {
  current_video_frame : option Frame;
  current_audio_data : option (list fval);
  last_sync_time : Q
}.

(** [__init__], lines 38-40. *)
Definition init : t :=
  {| current_video_frame := None;
     current_audio_data := None;
     last_sync_time := 0 |}.

(** One iteration of [_sync_loop], lines 86-102: the two sources are read,
    and the three fields are replaced inside one [with self.sync_lock:]
    block when both gave something.  [now] is the reading of [time.time()]
    taken in that block. *)
Definition sync_tick (sm : t) (obs : OBSCapture.t) (pa : PyAudioCapture.t)
    (now : Q) : t :=
  let '(video_frame, video_time) := OBSCapture.get_current_frame obs in
  let audio_data := PyAudioCapture.get_latest_audio pa 500 in
  match video_frame, audio_data with
  | Some _, Some _ =>
      let processed_video := StreamProcessor.process_video video_frame in
      let processed_audio := StreamProcessor.process_audio audio_data in
      {| current_video_frame := processed_video;
         current_audio_data := processed_audio;
         last_sync_time := now |}
  | _, _ => sm
  end.

(** [get_sync_data], lines 107-116. *)
Definition get_sync_data (sm : t) : option Frame * option (list fval) * Q :=
  match current_video_frame sm, current_audio_data sm with
  | Some f, Some a => (Some f, Some a, last_sync_time sm)
  | _, _ => (None, None, 0%Q)
  end.

(** What one iteration of the loop finds in the two sources, and the clock. *)
Record tick_input : Type := Tick {
  tick_obs : OBSCapture.t;
  tick_audio : PyAudioCapture.t;
  tick_now : Q
}.

(** The snapshot after the loop has run over the given iterations. *)
Definition run_sync (sm : t) (ticks : list tick_input) : t :=
  foldl (fun s i => sync_tick s (tick_obs i) (tick_audio i) (tick_now i)) sm ticks.

(** The snapshot holds neither a frame nor audio. *)
Definition empty_snapshot (sm : t) : Prop :=
  current_video_frame sm = None /\ current_audio_data sm = None.

(** The snapshot holds the processed frame and the processed audio window
    that one and the same iteration read from the two sources, with the
    clock reading of that iteration. *)
Definition written_by (i : tick_input) (sm : t) : Prop :=
  exists f a pf pa,
    OBSCapture.current_frame (tick_obs i) = Some f
    /\ PyAudioCapture.get_latest_audio (tick_audio i) 500 = Some a
    /\ StreamProcessor.process_video (Some f) = Some pf
    /\ StreamProcessor.process_audio (Some a) = Some pa
    /\ current_video_frame sm = Some pf
    /\ current_audio_data sm = Some pa
    /\ last_sync_time sm = tick_now i.

End Sync.
End SyncManager.

(** ** activity_classifier.py: the rule cascade *)

Module ActivityClassifier.

(** The audio rules (energy above 0.1), lines 266-275. *)
Definition audio_rule (audio_features : features) : string * fval :=
  if fgt (dict_get audio_features "zero_crossing_rate") (Fin (2 # 10)) then
    (Label.video_call,
     py_min (fadd (Fin (7 # 10)) (dict_get audio_features "energy")) (Fin (95 # 100)))
  else
    (Label.video_media,
     py_min (fadd (Fin (65 # 100)) (dict_get audio_features "energy")) (Fin (9 # 10))).

(** The video rules, lines 277-299. *)
Definition video_rule (video_features : features) : string * fval :=
  let std_intensity := dict_get video_features "std_intensity" in
  let mean_intensity := dict_get video_features "mean_intensity" in
  if flt std_intensity (Fin 20) then
    if flt mean_intensity (Fin 100) then (Label.idle, Fin (8 # 10))
    else (Label.reading, Fin (7 # 10))
  else if fgt std_intensity (Fin 50) then (Label.video_media, Fin (75 # 100))
  else (Label.web_browsing, Fin (65 # 100)).

(** The combination rule, lines 301-309: applied last, it replaces the
    label and confidence chosen so far. *)
Definition combine_rule (video_features audio_features : features)
    (chosen : string * fval) : string * fval :=
  if truthy video_features && truthy audio_features then
    let video_std := dict_get video_features "std_intensity" in
    let audio_energy := dict_get audio_features "energy" in
    if fgt video_std (Fin 30) && fgt audio_energy (Fin (5 # 100)) then
      (Label.video_call, Fin (85 # 100))
    else chosen
  else chosen.

Definition _rule_based_classification
    (video_features audio_features : features) (now : Q) : activity :=
  let activity_type := Label.idle in
  let confidence := Fin (6 # 10) in
  if negb (truthy video_features) && negb (truthy audio_features) then
    Activity activity_type confidence (py_int now) 0
  else
    let chosen :=
      if truthy audio_features
         && fgt (dict_get audio_features "energy") (Fin (1 # 10)) then
        audio_rule audio_features
      else if truthy video_features then video_rule video_features
      else (activity_type, confidence) in
    let '(activity_type, confidence) :=
      combine_rule video_features audio_features chosen in
    Activity activity_type confidence (py_int now) 0.

(** [_classify_activity], with [self.model] as loaded by [_load_model]:
    [None] or the placeholder ["rule_based"], so the model branch is
    [pass] in both cases. *)
Definition _classify_activity
    (video_features audio_features : features) (now : Q) : option activity :=
  if negb (truthy video_features) && negb (truthy audio_features) then None
  else Some (_rule_based_classification video_features audio_features now).

Section Analysis.
Context `{Imaging} `{Numeric}.

(** [_extract_video_features], lines 137-179. *)
Definition _extract_video_features (video_frame : option Frame) : features :=
  match video_frame with
  | None => ∅
  | Some f => video_statistics f
  end.

(** [_extract_audio_features], lines 181-218: the same body as
    [StreamProcessor.extract_audio_features]. *)
Definition _extract_audio_features (audio_data : option (list fval)) : features :=
  StreamProcessor.extract_audio_features audio_data.

(** The fields written by the analysis, lines 40-41. *)
Record t : Type := Make {
  last_activity : option activity;
  last_analysis_time : Q
}.

Definition init : t := {| last_activity := None; last_analysis_time := 0 |}.

(** [analyze_current_activity], lines 106-135.  [t_classify] is the clock
    read by the classification and [t_store] the one read under
    [activity_lock].  A result is a dict of four entries, hence true in
    [if activity:]. *)
Definition analyze_current_activity (ac : t) (sm : SyncManager.t)
    (t_classify t_store : Q) : t * option activity :=
  match SyncManager.get_sync_data sm with
  | (Some video_frame, Some audio_data, _) =>
      let video_features := _extract_video_features (Some video_frame) in
      let audio_features := _extract_audio_features (Some audio_data) in
      match _classify_activity video_features audio_features t_classify with
      | Some activity =>
          ({| last_activity := Some activity; last_analysis_time := t_store |},
           Some activity)
      | None => (ac, None)
      end
  | _ => (ac, None)
  end.

(** [get_current_activity], lines 319-326. *)
Definition get_current_activity (ac : t) : option activity := last_activity ac.

(** What one analysis cycle finds: the snapshot and the two clock readings. *)
Record cycle_input : Type := Cycle {
  cycle_sync : SyncManager.t;
  cycle_classify_time : Q;
  cycle_store_time : Q
}.

Definition analysis_step (ac : t) (c : cycle_input) : t :=
  fst (analyze_current_activity ac (cycle_sync c)
         (cycle_classify_time c) (cycle_store_time c)).

(** The state after a sequence of analysis cycles. *)
Definition run_analysis (ac : t) (cycles : list cycle_input) : t :=
  foldl analysis_step ac cycles.

End Analysis.

End ActivityClassifier.

(** ** The feature definitions in the specification's words *)

Module FeatureSpec.

Definition total (qs : list Q) : Q := foldr Qplus 0%Q qs.

Definition count (qs : list Q) : Q := inject_Z (Z.of_nat (length qs)).

Definition mean (qs : list Q) : Q := (total qs / count qs)%Q.

(** The mean squared deviation from the mean: the square of the standard
    deviation. *)
Definition variance (qs : list Q) : Q :=
  mean (map (fun q => ((q - mean qs) * (q - mean qs))%Q) qs).

(** "mean of the absolute sample values" *)
Definition mean_abs (qs : list Q) : Q := mean (map Qabs qs).

(** "standard deviation of the absolute sample values", squared *)
Definition variance_abs (qs : list Q) : Q := variance (map Qabs qs).

(** "the maximum absolute sample value" *)
Definition is_max_abs (m : Q) (qs : list Q) : Prop :=
  (forall q, In q qs -> (Qabs q <= m)%Q) /\ (exists q, In q qs /\ (Qabs q == m)%Q).

(** "the sum of squared samples divided by the sample count" *)
Definition mean_square (qs : list Q) : Q :=
  (total (map (fun q => (q * q)%Q) qs) / count qs)%Q.

Definition negative (q : Q) : bool := Qltb q 0.

(** "the number of adjacent-sample transitions between non-negative and
    negative" *)
Fixpoint sign_changes (qs : list Q) : nat :=
  match qs with
  | a :: (b :: _) as rest =>
      ((if Bool.eqb (negative a) (negative b) then 0 else 1) + sign_changes rest)%nat
  | _ => 0%nat
  end.

Definition zero_crossing_rate (qs : list Q) : Q :=
  (inject_Z (Z.of_nat (sign_changes qs)) / count qs)%Q.

(** [min(base + energy, cap)] as a number. *)
Definition capped (base cap : Q) (energy : fval) : Q :=
  match energy with
  | Fin e => Qmin (base + e) cap
  | _ => cap
  end.

End FeatureSpec.

(** ** Concrete backends for evaluation *)

Module Demo.

(** Frames are identified by a number; processing keeps the frame, and the
    statistics are those of a uniformly black image. *)
Definition imaging : Imaging :=
  {| Frame := nat;
     pil_resize_enhance := fun f => Some f;
     video_statistics := fun _ =>
       <["mean_intensity" := Fin 0]>
       (<["std_intensity" := Fin 0]>
       (<["min_intensity" := Fin 0]>
       (<["max_intensity" := Fin 0]> ∅))) |}.

(** A square root that is exact on squares of rationals in lowest terms. *)
Definition numeric : Numeric :=
  {| np_sqrt := fun q => (Z.sqrt (Qnum (Qred q)) # Pos.sqrt (Qden (Qred q))) |}.

End Demo.

(** ** pyaudio_capture.py: the device around the buffer *)

Module PyAudioDevice.

(** What the [try] block of [start] does for a device index: the stream
    cannot be opened, it is opened but [start_stream] raises, or it runs. *)
Inductive open_result : Type :=
| OpenFails
| StartFails
| Opened.

(** The capture together with the fields [start] and [stop] use:
    [stream_open] stands for [self.stream is not None]. *)
Record t : Type := Make {
  capture : PyAudioCapture.t;
  device_index : Z;
  stream_open : bool
}.

(** [__init__], lines 28-60: an unspecified device is device 0. *)
Definition init (device_index : option Z)
    (sample_rate chunk_size buffer_seconds : Z) : t :=
  {| capture := PyAudioCapture.init sample_rate chunk_size buffer_seconds;
     device_index := default 0 device_index;
     stream_open := false |}.

Section Start.
Variable device : Z -> open_result.

(** The body of [start], lines 97-132, with the call [self.start()] of the
    last line as a parameter. *)
Definition start_body (self_start : t -> t) (d : t) : t :=
  if PyAudioCapture.is_streaming (capture d) then d
  else
    match device (device_index d) with
    | Opened =>
        {| capture := PyAudioCapture.start (capture d);
           device_index := device_index d;
           stream_open := true |}
    | outcome =>
        let d' :=
          {| capture := capture d;
             device_index := device_index d;
             stream_open :=
               match outcome with StartFails => true | _ => stream_open d end |} in
        if negb (device_index d' =? 0) then
          self_start {| capture := capture d';
                        device_index := 0;
                        stream_open := stream_open d' |}
        else d'
    end.

(** [start]: the inner call runs with device 0 and never calls itself. *)
Definition start (d : t) : t := start_body (start_body (fun d' => d')) d.

End Start.

Definition set_streaming (flag : bool) (st : PyAudioCapture.t) : PyAudioCapture.t :=
  {| PyAudioCapture.sample_rate := PyAudioCapture.sample_rate st;
     PyAudioCapture.chunk_size := PyAudioCapture.chunk_size st;
     PyAudioCapture.buffer_chunks := PyAudioCapture.buffer_chunks st;
     PyAudioCapture.audio_buffer := PyAudioCapture.audio_buffer st;
     PyAudioCapture.buffer_index := PyAudioCapture.buffer_index st;
     PyAudioCapture.is_streaming := flag |}.

(** [stop], lines 134-145. *)
Definition stop (d : t) : t :=
  if negb (PyAudioCapture.is_streaming (capture d)) || negb (stream_open d) then d
  else {| capture := set_streaming false (capture d);
          device_index := device_index d;
          stream_open := false |}.

(** The driver's callback on the device; [None] when the assignment raises. *)
Definition callback (d : t) (audio_data : list Z) : option t :=
  match PyAudioCapture._audio_callback (capture d) audio_data with
  | Some st => Some {| capture := st;
                       device_index := device_index d;
                       stream_open := stream_open d |}
  | None => None
  end.

Definition get_latest_audio (d : t) (duration_ms : Z) : option (list Z) :=
  PyAudioCapture.get_latest_audio (capture d) duration_ms.



End PyAudioDevice.

(** ** obs_capture.py: connection and source discovery *)

Module OBSConnection.

(** One source or input as OBS reports it: a dict of strings. *)
Abbreviation entry := (gmap string string).

(** What [_connect] meets: the client cannot be created, it is created but
    [get_version] raises, or the connection works. *)
Inductive connect_outcome : Type :=
| ClientFails
| VersionFails
| Connects.

(** The OBS backend: the outcome of a connection, the sources in the answer
    to [GetSourcesList] and the inputs in the answer to [get_input_list],
    each [None] when the call raises. *)
Record backend : Type := Backend {
  connect : connect_outcome;
  sources_list : option (list entry);
  input_list : option (list entry)
}.

(** [client] stands for [self.client is not None]; [capture_source] is the
    source the capture thread was started with. *)
Record t : Type := Make {
  client : bool;
  connected : bool;
  video_sources : list string;
  media_sources : list string;
  is_capturing : bool;
  capture_source : option string
}.

Definition video_kinds : list string := ["dshow_input"; "v4l2_input"].
Definition media_kinds : list string := ["ffmpeg_source"; "vlc_source"].

(** [e.get(kind_key) in kinds] *)
Definition of_kind (kind_key : string) (kinds : list string) (e : entry) : bool :=
  match e !! kind_key with
  | Some k => bool_decide (k ∈ kinds)
  | None => false
  end.

(** [[e[name_key] for e in entries if e.get(kind_key) in kinds]]; [None]
    when a selected entry has no name and the subscript raises. *)
Fixpoint names_of_kind (name_key kind_key : string) (kinds : list string)
    (entries : list entry) : option (list string) :=
  match entries with
  | [] => Some []
  | e :: rest =>
      if of_kind kind_key kinds e then
        match e !! name_key with
        | Some name => cons name <$> names_of_kind name_key kind_key kinds rest
        | None => None
        end
      else names_of_kind name_key kind_key kinds rest
  end.

Definition set_sources (video : option (list string)) (media : option (list string))
    (o : t) : t :=
  {| client := client o;
     connected := connected o;
     video_sources := default (video_sources o) video;
     media_sources := default (media_sources o) media;
     is_capturing := is_capturing o;
     capture_source := capture_source o |}.

(** The two assignments of a [try] block of [_get_sources]: the state
    reached, and whether the block ran to its end.  The first assignment is
    kept when the second raises. *)
Definition assign_sources (name_key kind_key : string) (answer : option (list entry))
    (o : t) : t * bool :=
  match answer with
  | None => (o, false)
  | Some entries =>
      match names_of_kind name_key kind_key video_kinds entries with
      | None => (o, false)
      | Some video =>
          match names_of_kind name_key kind_key media_kinds entries with
          | None => (set_sources (Some video) None o, false)
          | Some media => (set_sources (Some video) (Some media) o, true)
          end
      end
  end.

(** [_get_sources], lines 68-105. *)
Definition _get_sources (b : backend) (o : t) : t :=
  if negb (connected o) || negb (client o) then o
  else
    let '(o1, done) := assign_sources "name" "typeId" (sources_list b) o in
    if done then o1
    else fst (assign_sources "inputName" "inputKind" (input_list b) o1).

Definition set_connection (has_client is_connected : bool) (o : t) : t :=
  {| client := has_client;
     connected := is_connected;
     video_sources := video_sources o;
     media_sources := media_sources o;
     is_capturing := is_capturing o;
     capture_source := capture_source o |}.

(** [_connect], lines 44-66. *)
Definition _connect (b : backend) (o : t) : t :=
  match connect b with
  | ClientFails => set_connection (client o) false o
  | VersionFails => set_connection true false o
  | Connects =>
      let o1 := set_connection true (connected o) o in
      let o2 := _get_sources b o1 in
      set_connection (client o2) true o2
  end.

(** [__init__], lines 28-42. *)
Definition init (b : backend) : t :=
  _connect b {| client := false;
                connected := false;
                video_sources := [];
                media_sources := [];
                is_capturing := false;
                capture_source := None |}.

(** [not source_name] for an optional string. *)
Definition no_name (source_name : option string) : bool :=
  match source_name with
  | None => true
  | Some s => bool_decide (s = "")
  end.

Definition set_capturing (flag : bool) (source : option string) (o : t) : t :=
  {| client := client o;
     connected := connected o;
     video_sources := video_sources o;
     media_sources := media_sources o;
     is_capturing := flag;
     capture_source := source |}.

(** [start_capture], lines 196-225. *)
Definition start_capture (source_name : option string) (o : t) : t :=
  if is_capturing o then o
  else
    let source_name :=
      if no_name source_name && negb (bool_decide (video_sources o = [])) then
        head (video_sources o)
      else source_name in
    if no_name source_name then o
    else set_capturing true source_name o.

(** [stop_capture], lines 238-246. *)
Definition stop_capture (o : t) : t := set_capturing false None o.

End OBSConnection.

(** ** sync_manager.py: start, stop and the readers *)

Module SyncLifecycle.

Record t : Type := Make {
  is_running : bool;
  pyaudio_capture : PyAudioDevice.t;
  obs_capture : OBSConnection.t
}.

(** [__init__] on the two captures, lines 28-47. *)
Definition init (audio : PyAudioDevice.t) (obs : OBSConnection.t) : t :=
  {| is_running := false; pyaudio_capture := audio; obs_capture := obs |}.

Section Start.
Variable device : Z -> PyAudioDevice.open_result.

(** [start], lines 51-76. *)
Definition start (s : t) : t :=
  if is_running s then s
  else
    let audio := PyAudioDevice.start device (pyaudio_capture s) in
    let video_source :=
      if negb (bool_decide (OBSConnection.video_sources (obs_capture s) = [])) then
        head (OBSConnection.video_sources (obs_capture s))
      else None in
    let obs :=
      if negb (OBSConnection.no_name video_source) then
        OBSConnection.start_capture video_source (obs_capture s)
      else obs_capture s in
    {| is_running := true; pyaudio_capture := audio; obs_capture := obs |}.

End Start.

(** [stop], lines 162-178. *)
Definition stop (s : t) : t :=
  if negb (is_running s) then s
  else {| is_running := false;
          pyaudio_capture := PyAudioDevice.stop (pyaudio_capture s);
          obs_capture := OBSConnection.stop_capture (obs_capture s) |}.

End SyncLifecycle.

Module SyncReaders.
Section Readers.
Context `{Imaging}.

(** [get_current_frame], lines 118-132: the frame of the video source, and
    the synchronised frame when the source has none. *)
Definition get_current_frame (sm : SyncManager.t) (obs : OBSCapture.t) : option Frame :=
  match fst (OBSCapture.get_current_frame obs) with
  | Some frame => Some frame
  | None => SyncManager.current_video_frame sm
  end.

(** [get_current_audio], lines 134-141. *)
Definition get_current_audio (sm : SyncManager.t) : option (list fval) :=
  SyncManager.current_audio_data sm.

(** [is_video_available], lines 180-187. *)
Definition is_video_available (sm : SyncManager.t) (obs : OBSCapture.t) : bool :=
  bool_decide (is_Some (get_current_frame sm obs)).

(** [is_audio_available], lines 189-196. *)
Definition is_audio_available (sm : SyncManager.t) : bool :=
  bool_decide (is_Some (get_current_audio sm)).

End Readers.
End SyncReaders.

(** ** api_routes.py: the current activity *)

Module ApiRoutes.
Section Routes.
Context `{Imaging} `{Numeric}.

(** The body of [GET /api/current-activity], lines 33-44: the last result,
    or the default answer when there is none. *)
Definition get_current_activity (ac : ActivityClassifier.t) (now : Q) : activity :=
  match ActivityClassifier.get_current_activity ac with
  | Some activity => activity
  | None => Activity "inactif" (Fin 1) (py_int now) 0
  end.

End Routes.
End ApiRoutes.

(** ** Windows as rationals *)

Module Window.

(** The samples of a window of integers, divided by [p]. *)
Definition scaled (p : Z) (xs : list Z) : list Q :=
  map (fun x => (inject_Z x / inject_Z p)%Q) xs.

(** The samples of a window of integers, as they are. *)
Definition raw (xs : list Z) : list Q := map inject_Z xs.

(** A window of 16-bit samples none of which is the most negative one. *)
Definition symmetric (xs : list Z) : Prop :=
  Forall (fun x => -32767 <= x <= 32767) xs.

End Window.

(** ** The range of the rule cascade *)

Module Cascade.

(** One of the five labels of the cascade, with a confidence between 0.6
    and 0.95. *)
Definition in_range (chosen : string * fval) : Prop :=
  In (fst chosen)
     [Label.idle; Label.video_call; Label.video_media; Label.reading;
      Label.web_browsing]
  /\ exists c, snd chosen = Fin c /\ (6 # 10 <= c)%Q /\ (c <= 95 # 100)%Q.

End Cascade.

(** ** A small scenario for evaluation *)

Module Scenario.

(** A capture of four rows of two samples that has received two chunks. *)
Definition recorded : PyAudioCapture.t :=
  default (PyAudioCapture.start (PyAudioCapture.init 8 2 1))
    (PyAudioCapture.run_callbacks
       (PyAudioCapture.start (PyAudioCapture.init 8 2 1))
       [[100; -200]; [50; 25]]).

(** A video source that holds frame 1. *)
Definition video : @OBSCapture.t Demo.imaging :=
  @OBSCapture.Make Demo.imaging (Some 1%nat) 0.

(** An iteration of the sync loop that finds both, at time 4. *)
Definition tick : @SyncManager.tick_input Demo.imaging :=
  @SyncManager.Tick Demo.imaging video recorded 4.

End Scenario.

(** ** external_service.py: the retry loop *)

Module ExternalService.

(** What a call does, in order: a request (numbered from 0) or a sleep of
    [retry_delay] seconds. *)
Inductive action : Type :=
| Request (attempt : nat)
| Sleep.

Section Client.
Context {Response : Type}.

(** The outcome of the request number [attempt]: the decoded answer, or
    [None] when [requests] raises a [RequestException]. *)
Variable request : nat -> option Response.

(** The loop [for attempt in range(self.retry_count)], lines 42-67 and
    91-117, from iteration [attempt] on, with [remaining] iterations left:
    the value returned and the actions carried out. *)
Fixpoint retry_loop (retry_count : Z) (attempt remaining : nat)
    : option Response * list action :=
  match remaining with
  | O => (None, [])
  | S remaining' =>
      match request attempt with
      | Some result => (Some result, [Request attempt])
      | None =>
          if Z.of_nat attempt <? retry_count - 1 then
            let '(result, actions) := retry_loop retry_count (S attempt) remaining' in
            (result, Request attempt :: Sleep :: actions)
          else (None, [Request attempt])
      end
  end.

(** [send_activity], lines 33-67. *)
Definition send_activity (retry_count : Z) : option Response * list action :=
  retry_loop retry_count 0 (Z.to_nat retry_count).

End Client.

(** The first successful request among the first [n], if any. *)
Fixpoint first_success {Response : Type} (request : nat -> option Response)
    (attempt n : nat) : option (nat * Response) :=
  match n with
  | O => None
  | S n' =>
      match request attempt with
      | Some result => Some (attempt, result)
      | None => first_success request (S attempt) n'
      end
  end.

(** Requests [first], ..., [first + n - 1] with a sleep between two of
    them. *)
Fixpoint spaced_requests (first n : nat) : list action :=
  match n with
  | O => []
  | S O => [Request first]
  | S n' => Request first :: Sleep :: spaced_requests (S first) n'
  end.

End ExternalService.

(** ** error_system.py: the error log *)

Module ErrorSystem.

(** An entry of the log, as [log_error] builds it. *)
Record error : Type := Error {
  error_id : string;
  error_type : string;
  message : string;
  details : option string;
  source : option string;
  error_timestamp : Z;
  datetime : string
}.

Record t : Type := Make {
  max_errors : Z;
  errors : list error
}.

Section Log.
(** The identifier [f"err_{timestamp}_{hash(message) % 10000:04d}"] and the
    formatted local time of a timestamp. *)
Variable make_id : Z -> string -> string.
Variable format_time : Z -> string.

(** [errors[:n]] for a list and any integer [n]. *)
Definition prefix {A} (l : list A) (n : Z) : list A :=
  if 0 <=? n then take (Z.to_nat n) l
  else take (length l - Z.to_nat (- n)) l.

(** [log_error], lines 68-106: the entry, and the log with the entry in
    front, cut to [max_errors] entries when it has more. *)
Definition log_error (error_type message : string) (details source : option string)
    (now : Q) (es : t) : t * error :=
  let timestamp := py_int now in
  let e := {| error_id := make_id timestamp message;
              error_type := error_type;
              message := message;
              details := details;
              source := source;
              error_timestamp := timestamp;
              datetime := format_time timestamp |} in
  let inserted := e :: errors es in
  let kept :=
    if max_errors es <? Z.of_nat (length inserted) then prefix inserted (max_errors es)
    else inserted in
  ({| max_errors := max_errors es; errors := kept |}, e).

(** [errors[offset:offset + limit]] for non-negative [offset] and [limit]. *)
Definition page {A} (l : list A) (offset limit : nat) : list A :=
  take limit (drop offset l).

(** [get_errors], lines 124-145, for non-negative [limit] and [offset];
    [error_type] is [None] when no filter is given. *)
Definition get_errors (limit offset : nat) (wanted : option string) (es : t)
    : list error :=
  let filtered_errors :=
    match wanted with
    | Some ty =>
        if bool_decide (ty = "") then errors es
        else filter (fun e => error_type e = ty) (errors es)
    | None => errors es
    end in
  page filtered_errors offset limit.

(** [clear_errors], lines 147-160. *)
Definition clear_errors (es : t) : t * Z :=
  ({| max_errors := max_errors es; errors := [] |}, Z.of_nat (length (errors es))).

(** One call of [log_error], as an input. *)
Record call : Type := Call {
  call_type : string;
  call_message : string;
  call_details : option string;
  call_source : option string;
  call_time : Q
}.

Definition log_call (es : t) (c : call) : t :=
  fst (log_error (call_type c) (call_message c) (call_details c) (call_source c)
         (call_time c) es).

Definition entry_of (c : call) : error :=
  {| error_id := make_id (py_int (call_time c)) (call_message c);
     error_type := call_type c;
     message := call_message c;
     details := call_details c;
     source := call_source c;
     error_timestamp := py_int (call_time c);
     datetime := format_time (py_int (call_time c)) |}.

End Log.

End ErrorSystem.

(** ** main.py: the application as it is wired *)

Module App.
Section Application.
Context `{Imaging} `{Numeric}.

(** [capture_frame], lines 107-194 of obs_capture.py, on the connection
    and the frame store of the capture.  [shot] is the image the screenshot
    request gives, by the first method or by the alternative one, [None]
    when neither gives one; [now] is the clock read when the frame is
    stored. *)
Definition capture_frame (source_name : option string) (shot : option Frame)
    (now : Q) (conn : OBSConnection.t) (store : OBSCapture.t)
    : OBSCapture.t * option Frame :=
  if negb (OBSConnection.connected conn) || negb (OBSConnection.client conn) then
    (store, None)
  else if OBSConnection.no_name source_name
          && bool_decide (OBSConnection.video_sources conn = []) then
    (store, None)
  else
    match shot with
    | Some img =>
        ({| OBSCapture.current_frame := Some img; OBSCapture.frame_time := now |},
         Some img)
    | None => (store, None)
    end.

(** The objects [init_app] creates and [start_app] starts.  [sync] holds
    the running flag of the sync manager, the audio capture and the
    connection side of the video capture; [frames] is the frame store of
    the video capture. *)
Record t : Type := Make {
  sync : SyncLifecycle.t;
  frames : OBSCapture.t;
  snapshot : SyncManager.t;
  classifier : ActivityClassifier.t;
  is_analyzing : bool
}.

(** [init_app], lines 24-76 of main.py. *)
Definition init_app (b : OBSConnection.backend) : t :=
  {| sync := SyncLifecycle.init (PyAudioDevice.init None 16000 1024 5)
               (OBSConnection.init b);
     frames := {| OBSCapture.current_frame := None; OBSCapture.frame_time := 0 |};
     snapshot := SyncManager.init;
     classifier := ActivityClassifier.init;
     is_analyzing := false |}.

(** [start_app], lines 78-96: [sync_manager.start()], then
    [activity_classifier.start_analysis_loop()]. *)
Definition start_app (device : Z -> PyAudioDevice.open_result) (app : t) : t :=
  {| sync := SyncLifecycle.start device (sync app);
     frames := frames app;
     snapshot := snapshot app;
     classifier := classifier app;
     is_analyzing := true |}.

(** What happens while the application runs: a callback of the audio
    driver, an iteration of one of the three loops, or a request
    [POST /api/classify]. *)
Inductive event : Type :=
| DriverCallback (audio_data : list Z)
| CaptureIteration (shot : option Frame) (now : Q)
| SyncIteration (now : Q)
| AnalysisIteration (t_classify t_store : Q)
| ClassifyRequest (t_classify t_store : Q).

Definition set_audio (audio : PyAudioDevice.t) (app : t) : t :=
  {| sync := {| SyncLifecycle.is_running := SyncLifecycle.is_running (sync app);
                SyncLifecycle.pyaudio_capture := audio;
                SyncLifecycle.obs_capture := SyncLifecycle.obs_capture (sync app) |};
     frames := frames app;
     snapshot := snapshot app;
     classifier := classifier app;
     is_analyzing := is_analyzing app |}.

Definition set_frames (store : OBSCapture.t) (app : t) : t :=
  {| sync := sync app;
     frames := store;
     snapshot := snapshot app;
     classifier := classifier app;
     is_analyzing := is_analyzing app |}.

Definition set_snapshot (sm : SyncManager.t) (app : t) : t :=
  {| sync := sync app;
     frames := frames app;
     snapshot := sm;
     classifier := classifier app;
     is_analyzing := is_analyzing app |}.

Definition set_classifier (ac : ActivityClassifier.t) (app : t) : t :=
  {| sync := sync app;
     frames := frames app;
     snapshot := snapshot app;
     classifier := ac;
     is_analyzing := is_analyzing app |}.

(** One event.  The driver calls back only while the stream runs, and a
    loop iterates only while its flag is set: [_capture_loop] under
    [is_capturing], [_sync_loop] under [is_running], [_analysis_loop] under
    [is_analyzing]. *)
Definition step (app : t) (e : event) : t :=
  let audio := SyncLifecycle.pyaudio_capture (sync app) in
  let conn := SyncLifecycle.obs_capture (sync app) in
  match e with
  | DriverCallback audio_data =>
      if PyAudioCapture.is_streaming (PyAudioDevice.capture audio) then
        match PyAudioDevice.callback audio audio_data with
        | Some audio' => set_audio audio' app
        | None => app
        end
      else app
  | CaptureIteration shot now =>
      if OBSConnection.is_capturing conn then
        set_frames
          (fst (capture_frame (OBSConnection.capture_source conn) shot now conn
                  (frames app)))
          app
      else app
  | SyncIteration now =>
      if SyncLifecycle.is_running (sync app) then
        set_snapshot
          (SyncManager.sync_tick (snapshot app) (frames app)
             (PyAudioDevice.capture audio) now)
          app
      else app
  | AnalysisIteration t_classify t_store =>
      if is_analyzing app then
        set_classifier
          (fst (ActivityClassifier.analyze_current_activity (classifier app)
                  (snapshot app) t_classify t_store))
          app
      else app
  | ClassifyRequest t_classify t_store =>
      set_classifier
        (fst (ActivityClassifier.analyze_current_activity (classifier app)
                (snapshot app) t_classify t_store))
        app
  end.

(** The application after a sequence of events. *)
Definition run (app : t) (events : list event) : t := foldl step app events.

End Application.
End App.

(** * Properties *)

(** ** Floats and dictionaries *)

Lemma Qltb_true (a b : Q) : Qltb a b = true <-> (a < b)%Q.
Proof.
  unfold Qltb. destruct (Qlt_le_dec a b) as [Hlt | Hle]; split; intros Hx; try done.
  exfalso. exact (Qle_not_lt _ _ Hle Hx).
Qed.

Lemma Qltb_false (a b : Q) : Qltb a b = false <-> (b <= a)%Q.
Proof.
  unfold Qltb. destruct (Qlt_le_dec a b) as [Hlt | Hle]; split; intros Hx; try done.
  exfalso. exact (Qle_not_lt _ _ Hx Hlt).
Qed.

Lemma fle_not_flt (x y : fval) : fle x y = true -> flt y x = false.
Proof. destruct x, y; simpl; intros Hx; try done; by apply negb_true_iff. Qed.

Lemma truthy_true (d : features) : truthy d = true <-> d ≠ ∅.
Proof.
  unfold truthy. rewrite negb_true_iff, bool_decide_eq_false. done.
Qed.

Lemma truthy_false (d : features) : truthy d = false <-> d = ∅.
Proof.
  unfold truthy. rewrite negb_false_iff, bool_decide_eq_true. done.
Qed.

Lemma truthy_empty : truthy ∅ = false.
Proof. by apply truthy_false. Qed.

Lemma dict_get_empty (key : string) : dict_get ∅ key = Fin 0.
Proof. unfold dict_get. by rewrite lookup_empty. Qed.

(** An entry above a non-negative threshold is an entry that exists. *)
Lemma fgt_dict_get_nonempty (d : features) (key : string) (c : Q) :
  (0 <= c)%Q -> fgt (dict_get d key) (Fin c) = true -> truthy d = true.
Proof.
  intros Hc Hgt. apply truthy_true. intros ->.
  rewrite dict_get_empty in Hgt. simpl in Hgt.
  apply Qltb_true in Hgt. exact (Qle_not_lt _ _ Hc Hgt).
Qed.

Lemma py_min_capped (base cap : Q) (energy : fval) (c : Q) :
  fgt energy (Fin c) = true ->
  exists m, py_min (fadd (Fin base) energy) (Fin cap) = Fin m
            /\ (m == FeatureSpec.capped base cap energy)%Q.
Proof.
  intros Hgt. destruct energy as [e | | |]; simpl in Hgt; try discriminate.
  - unfold py_min; simpl. destruct (Qltb cap (base + e)) eqn:Hc.
    + exists cap. split; [done |]. apply Qltb_true in Hc.
      symmetry. apply Q.min_r. by apply Qlt_le_weak.
    + exists (base + e)%Q. split; [done |]. apply Qltb_false in Hc.
      symmetry. by apply Q.min_l.
  - exists cap. split; done.
Qed.

(** ** The rule cascade *)

Module ClassifierFacts.
Import ActivityClassifier.

Lemma classify_some (vf af : features) (now : Q) :
  truthy vf = true \/ truthy af = true ->
  _classify_activity vf af now = Some (_rule_based_classification vf af now).
Proof.
  intros Hne. unfold _classify_activity.
  destruct Hne as [-> | ->]; simpl; [done |]. by rewrite andb_false_r.
Qed.

Lemma rule_based_unfold (vf af : features) (now : Q) :
  truthy vf = true \/ truthy af = true ->
  _rule_based_classification vf af now =
    let chosen :=
      if truthy af && fgt (dict_get af "energy") (Fin (1 # 10)) then audio_rule af
      else if truthy vf then video_rule vf
      else (Label.idle, Fin (6 # 10)) in
    Activity (fst (combine_rule vf af chosen)) (snd (combine_rule vf af chosen))
             (py_int now) 0.
Proof.
  intros Hne. unfold _rule_based_classification.
  replace (negb (truthy vf) && negb (truthy af)) with false.
  - cbv zeta. by destruct (combine_rule vf af _).
  - destruct Hne as [-> | ->]; simpl; [done |]. by rewrite andb_false_r.
Qed.

Lemma combine_rule_fires (vf af : features) (chosen : string * fval) :
  fgt (dict_get vf "std_intensity") (Fin 30) = true ->
  fgt (dict_get af "energy") (Fin (5 # 100)) = true ->
  combine_rule vf af chosen = (Label.video_call, Fin (85 # 100)).
Proof.
  intros Hstd Hen. unfold combine_rule.
  rewrite (fgt_dict_get_nonempty vf "std_intensity" 30), (fgt_dict_get_nonempty af "energy" (5 # 100));
    try done.
  by rewrite Hstd, Hen.
Qed.

Lemma combine_rule_one_sided (vf af : features) (chosen : string * fval) :
  vf = ∅ \/ af = ∅ -> combine_rule vf af chosen = chosen.
Proof.
  intros Hempty. unfold combine_rule.
  destruct Hempty as [-> | ->]; rewrite truthy_empty; [done |].
  by rewrite andb_false_r.
Qed.

(** C3.  Whenever the video features have [std_intensity > 30] and the audio
    features have [energy > 0.05] (both sets are then non-empty), the
    classifier returns the label "video-call" with confidence 0.85, whatever
    the audio and video rules had chosen before. *)
Theorem overlay_forces_video_call (vf af : features) (now : Q) :
  fgt (dict_get vf "std_intensity") (Fin 30) = true ->
  fgt (dict_get af "energy") (Fin (5 # 100)) = true ->
  _classify_activity vf af now
    = Some (Activity Label.video_call (Fin (85 # 100)) (py_int now) 0).
Proof.
  intros Hstd Hen.
  assert (Hvf : truthy vf = true) by by apply (fgt_dict_get_nonempty vf "std_intensity" 30).
  rewrite classify_some by by left.
  rewrite rule_based_unfold by by left.
  cbv zeta. by rewrite combine_rule_fires.
Qed.

(** The specification's example: [std_intensity = 35] with [energy = 0.06]. *)
Lemma overlay_forces_video_call_witness :
  let vf : features := {["std_intensity" := Fin 35]} in
  let af : features := {["energy" := Fin (6 # 100)]} in
  fgt (dict_get vf "std_intensity") (Fin 30) = true
  /\ fgt (dict_get af "energy") (Fin (5 # 100)) = true
  /\ _classify_activity vf af 0
     = Some (Activity Label.video_call (Fin (85 # 100)) (py_int 0) 0).
Proof.
  intros vf af.
  assert (H1 : fgt (dict_get vf "std_intensity") (Fin 30) = true) by reflexivity.
  assert (H2 : fgt (dict_get af "energy") (Fin (5 # 100)) = true) by reflexivity.
  exact (conj H1 (conj H2 (overlay_forces_video_call vf af 0 H1 H2))).
Defined.

(** C4.  With no video features and audio [energy > 0.1], the classifier
    returns "video-call" with confidence [min(0.7 + energy, 0.95)] when
    [zero_crossing_rate > 0.2], and "video/media" with confidence
    [min(0.65 + energy, 0.9)] otherwise. *)
Theorem audio_only_rule (af : features) (now : Q) :
  fgt (dict_get af "energy") (Fin (1 # 10)) = true ->
  exists c,
    _classify_activity ∅ af now
      = Some (Activity
                (if fgt (dict_get af "zero_crossing_rate") (Fin (2 # 10))
                 then Label.video_call else Label.video_media)
                (Fin c) (py_int now) 0)
    /\ (c == if fgt (dict_get af "zero_crossing_rate") (Fin (2 # 10))
             then FeatureSpec.capped (7 # 10) (95 # 100) (dict_get af "energy")
             else FeatureSpec.capped (65 # 100) (9 # 10) (dict_get af "energy"))%Q.
Proof.
  intros Hen.
  assert (Haf : truthy af = true) by by apply (fgt_dict_get_nonempty af "energy" (1 # 10)).
  rewrite classify_some by by right.
  rewrite rule_based_unfold by by right.
  cbv zeta. rewrite Haf, Hen. simpl andb. cbv iota.
  rewrite combine_rule_one_sided by by left.
  unfold audio_rule.
  destruct (fgt (dict_get af "zero_crossing_rate") (Fin (2 # 10))); cbn [fst snd].
  - destruct (py_min_capped (7 # 10) (95 # 100) _ _ Hen) as (m & -> & Hm). by exists m.
  - destruct (py_min_capped (65 # 100) (9 # 10) _ _ Hen) as (m & -> & Hm). by exists m.
Qed.

(** The specification's example: [energy = 0.3], [zero_crossing_rate = 0.5]
    gives "video-call" with the confidence capped at 0.95. *)
Lemma audio_only_rule_witness :
  let af : features :=
    <["energy" := Fin (3 # 10)]> {["zero_crossing_rate" := Fin (5 # 10)]} in
  fgt (dict_get af "energy") (Fin (1 # 10)) = true
  /\ exists c,
       _classify_activity ∅ af 0
         = Some (Activity Label.video_call (Fin c) (py_int 0) 0)
       /\ (c == 95 # 100)%Q.
Proof.
  intros af.
  assert (H1 : fgt (dict_get af "energy") (Fin (1 # 10)) = true) by reflexivity.
  split; [exact H1 |].
  destruct (audio_only_rule af 0 H1) as (c & Hc & Hq).
  exists c. split; [exact Hc | exact Hq].
Defined.

(** C5.  With no audio features and a non-empty video feature set, the
    classifier returns "idle" 0.8 when [std_intensity < 20] and
    [mean_intensity < 100], "reading" 0.7 when [std_intensity < 20] and
    [mean_intensity >= 100], "video/media" 0.75 when [std_intensity > 50],
    and "web-browsing" 0.65 when [20 <= std_intensity <= 50]. *)
Theorem video_only_rule (vf : features) (now : Q) :
  vf ≠ ∅ ->
  let std_intensity := dict_get vf "std_intensity" in
  let mean_intensity := dict_get vf "mean_intensity" in
  exists r,
    _classify_activity vf ∅ now = Some r
    /\ timestamp r = py_int now /\ duration r = 0
    /\ (flt std_intensity (Fin 20) = true -> flt mean_intensity (Fin 100) = true ->
        type r = Label.idle /\ confidence r = Fin (8 # 10))
    /\ (flt std_intensity (Fin 20) = true -> fge mean_intensity (Fin 100) = true ->
        type r = Label.reading /\ confidence r = Fin (7 # 10))
    /\ (fgt std_intensity (Fin 50) = true ->
        type r = Label.video_media /\ confidence r = Fin (75 # 100))
    /\ (fle (Fin 20) std_intensity = true -> fle std_intensity (Fin 50) = true ->
        type r = Label.web_browsing /\ confidence r = Fin (65 # 100)).
Proof.
  intros Hne std_intensity mean_intensity.
  apply truthy_true in Hne.
  rewrite classify_some by by left.
  rewrite rule_based_unfold by by left.
  cbv zeta. rewrite truthy_empty, Hne. simpl andb. cbv iota.
  rewrite combine_rule_one_sided by by right.
  eexists. split; [reflexivity |]. cbn [timestamp duration type confidence].
  split; [done |]. split; [done |].
  unfold video_rule. fold std_intensity mean_intensity.
  assert (Hhigh : fgt std_intensity (Fin 50) = true -> flt std_intensity (Fin 20) = false).
  { intros Hgt. destruct std_intensity as [s | | |]; simpl in *; try done.
    apply Qltb_true in Hgt. apply Qltb_false.
    apply Qlt_le_weak. eapply Qlt_trans; [| exact Hgt]. reflexivity. }
  split; [| split; [| split]].
  - by intros -> ->.
  - intros -> Hge. unfold fge in Hge. by rewrite (fle_not_flt _ _ Hge).
  - intros Hgt. by rewrite (Hhigh Hgt), Hgt.
  - intros Hlo%fle_not_flt Hhi%fle_not_flt. unfold fgt. by rewrite Hlo, Hhi.
Qed.

(** The specification's example: [std_intensity = 10], [mean_intensity = 50]
    and no audio give "idle" with confidence 0.8. *)
Lemma video_only_rule_witness :
  let vf : features :=
    <["std_intensity" := Fin 10]> {["mean_intensity" := Fin 50]} in
  vf ≠ ∅
  /\ exists r, _classify_activity vf ∅ 0 = Some r
               /\ type r = Label.idle /\ confidence r = Fin (8 # 10).
Proof.
  intros vf.
  assert (Hne : vf ≠ ∅) by (apply truthy_true; reflexivity).
  split; [exact Hne |].
  destruct (video_only_rule vf 0 Hne) as (r & Hr & _ & _ & Hidle & _).
  exists r. split; [exact Hr |]. apply Hidle; reflexivity.
Defined.

(** C6, as the claim states it, fails: on two empty feature sets the
    classifier returns no result. *)
Lemma empty_features_idle_counterexample :
  ~ (exists r, _classify_activity ∅ ∅ 0 = Some r
               /\ type r = Label.idle /\ confidence r = Fin (6 # 10)
               /\ duration r = 0).
Proof. intros (r & Hr & _). discriminate Hr. Qed.

Section EmptyInputs.
Context `{Imaging} `{Numeric}.

(** C6, amended.  A missing frame and missing or empty audio give two empty
    feature sets.  On two empty feature sets [_classify_activity] returns no
    result, and so does an analysis of a snapshot that holds nothing; the
    rule cascade [_rule_based_classification], taken by itself, maps them to
    "idle" with confidence 0.6 and duration 0. *)
Theorem empty_features_no_result (ac : ActivityClassifier.t) (now t_store : Q) :
  _extract_video_features None = ∅
  /\ _extract_audio_features None = ∅
  /\ _extract_audio_features (Some []) = ∅
  /\ _classify_activity ∅ ∅ now = None
  /\ analyze_current_activity ac SyncManager.init now t_store = (ac, None)
  /\ _rule_based_classification ∅ ∅ now
     = Activity Label.idle (Fin (6 # 10)) (py_int now) 0.
Proof. repeat split. Qed.

End EmptyInputs.

End ClassifierFacts.

(** ** The circular buffer *)

Module BufferFacts.
Import PyAudioCapture.

Section Rotation.
Context {A : Type}.
Local Open Scope nat_scope.
Implicit Types (l h : list A) (x : A) (i k n : nat).

(** Writing slot [i] and advancing the index drops the oldest entry of the
    rotation and appends the new one. *)
Lemma rotation_write l i x :
  i < length l ->
  let l' := <[i := x]> l in
  let i' := (i + 1) mod length l in
  drop i' l' ++ take i' l' = drop 1 (drop i l ++ take i l) ++ [x].
Proof.
  intros Hi l' i'. subst l' i'.
  assert (Hdrop : drop 1 (drop i l ++ take i l) = drop (S i) l ++ take i l).
  { rewrite drop_app_le by (rewrite length_drop; lia).
    rewrite drop_drop. by replace (i + 1) with (S i) by lia. }
  rewrite Hdrop.
  destruct (decide (i + 1 = length l)) as [Hlast | Hmid].
  - rewrite Hlast, Nat.Div0.mod_same. rewrite drop_0, take_0, app_nil_r.
    rewrite (drop_ge l (S i)) by lia. simpl.
    rewrite insert_take_drop by done.
    by rewrite (drop_ge l (S i)) by lia.
  - rewrite Nat.mod_small by lia.
    rewrite drop_insert_lt by lia.
    replace (i + 1) with (S i) by lia.
    rewrite take_insert_lt by lia.
    rewrite <- app_assoc. f_equal.
    rewrite insert_take_drop by (rewrite length_take; lia).
    rewrite take_take, Nat.min_l by lia.
    rewrite (drop_ge (take (S i) l)) by (rewrite length_take; lia).
    done.
Qed.

Lemma most_recent_snoc n h x :
  1 <= n <= length h ->
  most_recent n (h ++ [x]) = drop 1 (most_recent n h) ++ [x].
Proof.
  intros Hn. unfold most_recent. rewrite length_app. simpl.
  rewrite drop_app_le by lia. rewrite drop_drop. do 2 f_equal. lia.
Qed.



Lemma most_recent_all h : most_recent (length h) h = h.
Proof. unfold most_recent. by rewrite Nat.sub_diag. Qed.



End Rotation.

Lemma init_well_formed (sr cs bs : Z) :
  0 < cs -> 0 < int_of_ratio sr bs cs -> well_formed (start (init sr cs bs)).
Proof.
  intros Hcs Hcap. split; cbn -[int_of_ratio]; try done.
  - by rewrite length_replicate.
  - apply Forall_replicate. by rewrite length_replicate.
Qed.

Lemma rotation_init (sr cs bs : Z) :
  rotation (start (init sr cs bs)) = audio_buffer (init sr cs bs).
Proof. unfold rotation. simpl. by rewrite app_nil_r. Qed.

(** One callback with a chunk of the right size. *)
Lemma callback_step (st : t) (c : chunk) :
  well_formed st -> length c = Z.to_nat (chunk_size st) ->
  exists st', _audio_callback st c = Some st'
              /\ well_formed st' /\ same_device st st'
              /\ rotation st' = drop 1 (rotation st) ++ [c].
Proof.
  intros [Hcs Hcap Hlen Hidx Hrows] Hc.
  unfold _audio_callback, assign_row. rewrite decide_True by done.
  eexists. split; [reflexivity |].
  assert (Hi : (Z.to_nat (buffer_index st) < length (audio_buffer st))%nat) by lia.
  assert (Hnext : Z.to_nat ((buffer_index st + 1) mod buffer_chunks st)
                  = ((Z.to_nat (buffer_index st) + 1) mod length (audio_buffer st))%nat).
  { rewrite Hlen. rewrite Z2Nat.inj_mod, Z2Nat.inj_add by lia. done. }
  split; [| split].
  - split; simpl; try done.
    + by rewrite length_insert.
    + by apply Z.mod_pos_bound.
    + by apply Forall_insert.
  - by repeat split.
  - unfold rotation; simpl. rewrite Hnext. by apply rotation_write.
Qed.

(** After any run of callbacks, the rotation of the buffer is the [capacity]
    newest rows of the stream. *)
Lemma run_callbacks_rotation (written : list chunk) :
  forall (st : t) (h : list chunk),
    well_formed st ->
    Forall (fun c => length c = Z.to_nat (chunk_size st)) written ->
    (length (audio_buffer st) <= length h)%nat ->
    rotation st = most_recent (length (audio_buffer st)) h ->
    exists st', run_callbacks st written = Some st'
                /\ well_formed st' /\ same_device st st'
                /\ length (audio_buffer st') = length (audio_buffer st)
                /\ rotation st' = most_recent (length (audio_buffer st)) (h ++ written).
Proof.
  induction written as [| c rest IH]; intros st h Hwf Hall Hlen Hrot.
  - exists st. rewrite app_nil_r. unfold same_device. done.
  - apply Forall_cons in Hall as [Hc Hrest].
    destruct (callback_step st c Hwf Hc) as (st1 & Hcb & Hwf1 & Hsame & Hrot1).
    assert (Hlen1 : length (audio_buffer st1) = length (audio_buffer st)).
    { destruct Hwf, Hwf1, Hsame as (_ & _ & Hcap & _). congruence. }
    destruct (IH st1 (h ++ [c])) as (st' & Hrun & Hwf' & Hsame' & Hlen' & Hrot').
    + done.
    + destruct Hsame as (_ & -> & _). done.
    + rewrite Hlen1, length_app. simpl. lia.
    + rewrite Hrot1, Hrot, Hlen1. symmetry. apply most_recent_snoc.
      destruct Hwf. lia.
    + exists st'. simpl. rewrite Hcb. split; [done |]. split; [done |].
      split; [| split].
      * destruct Hsame as (? & ? & ? & ?), Hsame' as (? & ? & ? & ?).
        repeat split; congruence.
      * congruence.
      * rewrite Hrot', Hlen1. by rewrite <- app_assoc.
Qed.

Lemma rotation_length (st : t) : length (rotation st) = length (audio_buffer st).
Proof.
  unfold rotation. rewrite length_app, length_drop, length_take. lia.
Qed.


(** A request for no row at all finds [start_index = buffer_index] and takes
    the wrap-around branch: it reads the whole buffer. *)
Lemma latest_rows_zero (st : t) :
  well_formed st -> latest_rows st 0 = rotation st.
Proof.
  intros [Hcs Hcap Hlen Hidx Hrows]. unfold latest_rows, rotation.
  rewrite Z.sub_0_r, Z.mod_small by lia. by rewrite Z.ltb_irrefl.
Qed.

Lemma rotation_rows (st : t) :
  well_formed st ->
  Forall (fun row => length row = Z.to_nat (chunk_size st)) (rotation st).
Proof.
  intros Hwf. unfold rotation. apply Forall_app.
  split; [apply Forall_drop | apply Forall_take]; by destruct Hwf.
Qed.

Lemma concat_rows_nonempty (rows : list chunk) (n : nat) :
  (0 < n)%nat -> rows <> [] -> Forall (fun row => length row = n) rows ->
  (0 <? Z.of_nat (length (concat rows))) = true.
Proof.
  intros Hn Hne Hall. destruct rows as [| r rest]; [done |].
  apply Forall_cons in Hall as [Hr _]. simpl. rewrite length_app.
  apply Z.ltb_lt. lia.
Qed.

(** Every run of the device from a fresh, started capture goes through, and
    leaves in the buffer the [capacity] newest rows of the stream. *)
Lemma run_from_init (sr cs bs : Z) (written : list chunk) :
  0 < cs -> 0 < int_of_ratio sr bs cs ->
  Forall (fun c => length c = Z.to_nat cs) written ->
  exists st,
    run_callbacks (start (init sr cs bs)) written = Some st
    /\ well_formed st /\ same_device (start (init sr cs bs)) st
    /\ rotation st
       = most_recent (Z.to_nat (buffer_chunks st)) (history (init sr cs bs) written).
Proof.
  intros Hcs Hcap Hall.
  pose proof (init_well_formed sr cs bs Hcs Hcap) as Hwf.
  destruct (run_callbacks_rotation written (start (init sr cs bs))
              (audio_buffer (init sr cs bs)) Hwf Hall) as
    (st & Hrun & Hwf' & Hsame & Hlen & Hrot).
  - done.
  - rewrite rotation_init. symmetry. apply most_recent_all.
  - exists st. split; [done |]. split; [done |]. split; [done |].
    rewrite Hrot. unfold history. f_equal.
    destruct Hwf' as [_ _ Hl _ _]. by rewrite <- Hl, Hlen.
Qed.


(** When the duration is shorter than one row, the read returns the whole
    buffer: the [capacity] newest rows instead of none. *)
Lemma get_latest_audio_short (sr cs bs : Z) (written : list chunk) (st : t) (d : Z) :
  0 < cs -> 0 < int_of_ratio sr bs cs ->
  Forall (fun c => length c = Z.to_nat cs) written ->
  run_callbacks (start (init sr cs bs)) written = Some st ->
  int_of_ratio sr d (cs * 1000) = 0 ->
  chunks_needed st d = 0
  /\ get_latest_audio st d
     = Some (concat (most_recent (Z.to_nat (buffer_chunks st))
                                 (history (init sr cs bs) written))).
Proof.
  intros Hcs Hcap Hall Hrun Hd.
  destruct (run_from_init sr cs bs written Hcs Hcap Hall) as
    (st' & Hrun' & Hwf & Hsame & Hrot).
  rewrite Hrun in Hrun'. injection Hrun' as <-.
  destruct Hsame as (Hsr & Hchunk & Hbuf & Hstream). simpl in *.
  assert (Hk : chunks_needed st d = 0).
  { unfold chunks_needed. rewrite Hsr, Hchunk, Hd. destruct Hwf. lia. }
  split; [done |].
  unfold get_latest_audio. rewrite Hstream, Hk. simpl negb. cbv iota zeta.
  rewrite latest_rows_zero by done.
  rewrite (concat_rows_nonempty _ (Z.to_nat (chunk_size st))).
  - by rewrite Hrot.
  - lia.
  - intros Hnil. apply (f_equal length) in Hnil.
    rewrite rotation_length in Hnil. destruct Hwf. simpl in Hnil. lia.
  - by apply rotation_rows.
Qed.

(** Whatever it returns, [get_latest_audio] never returns an empty array. *)
Lemma get_latest_audio_nonempty (st : t) (d : Z) (a : list Z) :
  get_latest_audio st d = Some a -> a <> [].
Proof.
  unfold get_latest_audio. destruct (negb (is_streaming st)); [done |].
  destruct (0 <? _) eqn:Hlen; [| done].
  intros [= <-] Hnil. rewrite Hnil in Hlen. done.
Qed.

(** C2.  The read at a duration shorter than one row.  A capture of four
    rows of two samples receives five chunks; asked for 0 ms, that is for
    [min(0, 4) = 0] rows, [get_latest_audio] returns the four rows of the
    buffer, oldest first, instead of nothing. *)
Theorem get_latest_audio_zero_duration :
  exists st,
    run_callbacks (start (init 8 2 1)) [[1; 2]; [3; 4]; [5; 6]; [7; 8]; [9; 10]]
      = Some st
    /\ buffer_chunks st = 4
    /\ chunks_needed st 0 = 0
    /\ get_latest_audio st 0 = Some [3; 4; 5; 6; 7; 8; 9; 10].
Proof. eexists. split; [reflexivity |]. repeat split. Qed.

End BufferFacts.

(** ** Audio normalisation and audio features *)

Module StreamFacts.
Import StreamProcessor.

Lemma peak_silence (n : nat) : peak (replicate (S n) 0) = 0.
Proof.
  unfold peak. simpl. induction n as [| n IH]; [done |].
  simpl. fold (max_of (abs16 0) (map abs16 (replicate n 0))) in *.
  unfold max_of in *. by rewrite IH.
Qed.

(** C7.  The all-zero window: its peak is 0, every quotient is 0/0, and the
    normalised window consists of undefined values only. *)
Theorem process_audio_silence (n : nat) :
  process_audio (Some (replicate (S n) 0)) = Some (replicate (S n) NaN)
  /\ Forall (fun x => in_unit_range x = false) (replicate (S n) NaN).
Proof.
  split.
  - unfold process_audio. rewrite length_replicate. simpl Nat.eqb. cbv iota.
    rewrite peak_silence. f_equal.
    generalize (S n). intros m. induction m as [| m IH]; [done |].
    simpl. by rewrite IH.
  - by apply Forall_replicate.
Qed.

(** The most negative sample: its 16-bit absolute value is negative, the
    peak is that of the other samples, and the quotient leaves [[-1, 1]]. *)
Lemma process_audio_most_negative :
  process_audio (Some [-32768; 16384])
    = Some [Fin (inject_Z (-32768) / inject_Z 16384); Fin (inject_Z 16384 / inject_Z 16384)]
  /\ in_unit_range (Fin (inject_Z (-32768) / inject_Z 16384)) = false.
Proof. split; reflexivity. Qed.

Lemma abs16_small (x : Z) : -32767 <= x <= 32767 -> abs16 x = Z.abs x.
Proof.
  intros Hx. unfold abs16, wrap16.
  rewrite Z.mod_small by lia. lia.
Qed.

Lemma max_of_upper (a : Z) (xs : list Z) :
  a <= max_of a xs /\ Forall (fun x => x <= max_of a xs) xs.
Proof.
  unfold max_of. induction xs as [| x xs [IHa IHxs]]; simpl; [done |].
  split; [lia |]. apply Forall_cons. split; [lia |].
  eapply Forall_impl; [exact IHxs |]. simpl. intros y Hy. lia.
Qed.

Lemma peak_upper (xs : list Z) :
  Forall (fun x => -32767 <= x <= 32767) xs ->
  Forall (fun x => Z.abs x <= peak xs) xs.
Proof.
  intros Hall. unfold peak. destruct xs as [| a rest]; [done |]. simpl.
  apply Forall_cons in Hall as [Ha Hrest].
  destruct (max_of_upper (abs16 a) (map abs16 rest)) as [Hhead Htail].
  apply Forall_cons. split.
  - by rewrite <- (abs16_small a).
  - rewrite Forall_map in Htail. rewrite Forall_forall in *.
    intros x Hx. rewrite <- (abs16_small x) by by apply Hrest.
    by apply Htail.
Qed.

Lemma int_true_divide_unit (x p : Z) :
  0 < p -> Z.abs x <= p -> in_unit_range (int_true_divide x p) = true.
Proof.
  intros Hp Hx. unfold int_true_divide.
  replace (p =? 0) with false by (symmetry; apply Z.eqb_neq; lia).
  unfold in_unit_range, fle, flt. apply andb_true_iff.
  assert (Hpos : (0 < inject_Z p)%Q) by (unfold Qlt; simpl; lia).
  split; apply negb_true_iff, Qltb_false.
  - apply Qle_shift_div_l; [done |]. unfold Qle; simpl. lia.
  - apply Qle_shift_div_r; [done |]. unfold Qle; simpl. lia.
Qed.

(** What the normalisation does achieve: a window with a non-zero peak and
    no sample equal to -32768 is mapped into [[-1, 1]]. *)
Lemma process_audio_unit_range (xs : list Z) :
  xs <> [] -> Forall (fun x => -32767 <= x <= 32767) xs -> peak xs <> 0 ->
  exists ys, process_audio (Some xs) = Some ys
             /\ length ys = length xs
             /\ Forall (fun y => in_unit_range y = true) ys.
Proof.
  intros Hne Hall Hpeak. unfold process_audio.
  destruct xs as [| a rest]; [done |]. simpl Nat.eqb. cbv iota.
  eexists. split; [reflexivity |]. split; [by rewrite length_map |].
  apply Forall_map. pose proof (peak_upper _ Hall) as Hup.
  assert (Hpos : 0 < peak (a :: rest)).
  { apply Forall_cons in Hup as [Ha _]. lia. }
  eapply Forall_impl; [exact Hup |]. simpl. intros x Hx.
  by apply int_true_divide_unit.
Qed.

(** A window that passes the guard of [process_audio] is never lost. *)
Lemma process_audio_some (xs : list Z) :
  xs <> [] -> exists ys, process_audio (Some xs) = Some ys.
Proof.
  intros Hne. unfold process_audio. destruct xs as [| a rest]; [done |].
  simpl. eauto.
Qed.

Section AudioFeatures.
Context `{Numeric}.

Lemma np_sum_finite (qs : list Q) : np_sum (map Fin qs) = Fin (FeatureSpec.total qs).
Proof.
  unfold np_sum, FeatureSpec.total.
  induction qs as [| q qs IH]; [done |]. simpl. by rewrite IH.
Qed.

Lemma np_mean_finite (qs : list Q) : np_mean (map Fin qs) = Fin (FeatureSpec.mean qs).
Proof. unfold np_mean. by rewrite np_sum_finite, length_map. Qed.

Lemma total_squares_nonneg (qs : list Q) :
  (0 <= FeatureSpec.total (map (fun q => q * q) qs))%Q.
Proof.
  induction qs as [| q qs IH]; [done |]. simpl.
  replace 0%Q with (0 + 0)%Q by done.
  apply Qplus_le_compat; [| exact IH].
  unfold Qle. simpl. nia.
Qed.

Lemma mean_squares_nonneg (qs : list Q) :
  (0 <= FeatureSpec.mean (map (fun q => q * q) qs))%Q.
Proof.
  unfold FeatureSpec.mean, Qdiv. apply Qmult_le_0_compat.
  - apply total_squares_nonneg.
  - apply Qinv_le_0_compat. unfold FeatureSpec.count, Qle. simpl. lia.
Qed.

Lemma np_std_finite (qs : list Q) :
  np_std (map Fin qs) = Fin (np_sqrt (FeatureSpec.variance qs)).
Proof.
  unfold np_std. rewrite np_mean_finite.
  rewrite !map_map. simpl.
  rewrite <- (map_map (fun q => ((q - FeatureSpec.mean qs) * (q - FeatureSpec.mean qs))%Q) Fin).
  rewrite np_sum_finite, length_map. simpl.
  assert (Hvar : (FeatureSpec.total
                   (map (fun q => (q - FeatureSpec.mean qs) * (q - FeatureSpec.mean qs)) qs)
                 / inject_Z (Z.of_nat (length qs)))%Q = FeatureSpec.variance qs).
  { unfold FeatureSpec.variance, FeatureSpec.mean at 3, FeatureSpec.count.
    by rewrite length_map. }
  rewrite Hvar.
  replace (Qltb (FeatureSpec.variance qs) 0) with false; [done |].
  symmetry. apply Qltb_false. unfold FeatureSpec.variance.
  rewrite <- (map_map (fun q => (q - FeatureSpec.mean qs)%Q) (fun d => (d * d)%Q)).
  apply mean_squares_nonneg.
Qed.

Lemma fmax_finite (a b : Q) :
  exists m, fmax (Fin a) (Fin b) = Fin m /\ (a <= m)%Q /\ (b <= m)%Q
            /\ (m = a \/ m = b).
Proof.
  simpl. destruct (Qltb a b) eqn:Hab.
  - exists b. apply Qltb_true in Hab. repeat split; auto using Qlt_le_weak, Qle_refl.
  - exists a. apply Qltb_false in Hab. repeat split; auto using Qle_refl.
Qed.

Lemma np_max_finite (a : Q) (qs : list Q) :
  exists m, foldr fmax (Fin (Qabs a)) (map fabs (map Fin qs)) = Fin m
            /\ FeatureSpec.is_max_abs m (a :: qs).
Proof.
  induction qs as [| q qs (m & Hm & Hup & (w & Hw & Heq))]; cbn [map foldr fabs].
  - exists (Qabs a). split; [done |]. split.
    + intros q [<- | []]. apply Qle_refl.
    + exists a. split; [by left | reflexivity].
  - rewrite Hm. destruct (fmax_finite (Qabs q) m) as (m' & -> & Hq & Hmm & Hsrc).
    exists m'. split; [done |]. split.
    + intros x [<- | [<- | Hx]].
      * eapply Qle_trans; [| exact Hmm]. apply Hup. by left.
      * done.
      * eapply Qle_trans; [| exact Hmm]. apply Hup. by right.
    + destruct Hsrc as [-> | ->].
      * exists q. split; [right; by left | reflexivity].
      * exists w. split; [| done]. destruct Hw as [<- | Hw]; [by left | right; by right].
Qed.

Lemma sign_changes_count (qs : list Q) :
  count_true (np_diff (map signbit (map Fin qs))) = FeatureSpec.sign_changes qs.
Proof.
  unfold count_true.
  induction qs as [| a [| b rest] IH]; [done | done |].
  change (FeatureSpec.sign_changes (a :: b :: rest))
    with ((if Bool.eqb (FeatureSpec.negative a) (FeatureSpec.negative b) then 0 else 1)
          + FeatureSpec.sign_changes (b :: rest))%nat.
  rewrite <- IH. simpl. unfold FeatureSpec.negative.
  destruct (Qltb a 0), (Qltb b 0); simpl; try done.
Qed.

Lemma mean_amplitude_signed (qs : list Q) :
  qs <> [] ->
  extract_audio_features (Some (map Fin qs)) !! "mean_amplitude"
    = Some (Fin (FeatureSpec.mean qs)).
Proof.
  intros Hne. unfold extract_audio_features.
  destruct qs as [| a rest]; [done |].
  replace (Nat.eqb (length (map Fin (a :: rest))) 0) with false by done.
  rewrite lookup_insert_eq. by rewrite np_mean_finite.
Qed.

Lemma std_amplitude_signed (qs : list Q) :
  qs <> [] ->
  extract_audio_features (Some (map Fin qs)) !! "std_amplitude"
    = Some (Fin (np_sqrt (FeatureSpec.variance qs))).
Proof.
  intros Hne. unfold extract_audio_features.
  destruct qs as [| a rest]; [done |].
  replace (Nat.eqb (length (map Fin (a :: rest))) 0) with false by done.
  rewrite lookup_insert_ne, lookup_insert_eq by done. by rewrite np_std_finite.
Qed.

(** C8, amended.  For a non-empty sequence of finite samples the extracted
    features are: [mean_amplitude], the mean of the samples themselves (with
    their signs); [std_amplitude], the square root of their mean squared
    deviation from that mean; [max_amplitude], the largest absolute value;
    [energy], the sum of the squares over the count; [zero_crossing_rate],
    the number of adjacent pairs of which exactly one sample is negative,
    over the count.  The classifier's copy of the function agrees. *)
Theorem audio_features_signed (qs : list Q) :
  qs <> [] ->
  let fs := extract_audio_features (Some (map Fin qs)) in
  fs !! "mean_amplitude" = Some (Fin (FeatureSpec.mean qs))
  /\ fs !! "std_amplitude" = Some (Fin (np_sqrt (FeatureSpec.variance qs)))
  /\ (exists m, fs !! "max_amplitude" = Some (Fin m) /\ FeatureSpec.is_max_abs m qs)
  /\ fs !! "energy" = Some (Fin (FeatureSpec.mean_square qs))
  /\ fs !! "zero_crossing_rate" = Some (Fin (FeatureSpec.zero_crossing_rate qs))
  /\ ActivityClassifier._extract_audio_features (Some (map Fin qs)) = fs.
Proof.
  intros Hne fs. subst fs. unfold ActivityClassifier._extract_audio_features.
  split; [by apply mean_amplitude_signed |].
  split; [by apply std_amplitude_signed |].
  unfold extract_audio_features.
  destruct qs as [| a rest]; [done |].
  replace (Nat.eqb (length (map Fin (a :: rest))) 0) with false by done.
  set (qs := a :: rest).
  split; [| split; [| split]].
  - do 2 rewrite lookup_insert_ne by done. rewrite lookup_insert_eq.
    destruct (np_max_finite a rest) as (m & Hm & Hmax).
    exists m. split; [| done]. f_equal. exact Hm.
  - do 3 rewrite lookup_insert_ne by done. rewrite lookup_insert_eq.
    rewrite map_map. simpl.
    rewrite <- (map_map (fun q => (q * q)%Q) Fin).
    rewrite np_sum_finite, length_map. done.
  - do 4 rewrite lookup_insert_ne by done. rewrite lookup_insert_eq.
    rewrite sign_changes_count, length_map. done.
  - done.
Qed.

End AudioFeatures.

(** The window [1.0, -1.0]: mean 0, standard deviation 1. *)
Lemma audio_features_signed_witness :
  let qs := [1%Q; (-1)%Q] in
  let fs := @extract_audio_features Demo.numeric (Some (map Fin qs)) in
  qs <> []
  /\ fs !! "mean_amplitude" = Some (Fin (FeatureSpec.mean qs))
  /\ fs !! "std_amplitude"
     = Some (Fin (@np_sqrt Demo.numeric (FeatureSpec.variance qs)))
  /\ (exists m, fs !! "max_amplitude" = Some (Fin m) /\ FeatureSpec.is_max_abs m qs)
  /\ fs !! "energy" = Some (Fin (FeatureSpec.mean_square qs))
  /\ fs !! "zero_crossing_rate" = Some (Fin (FeatureSpec.zero_crossing_rate qs))
  /\ @ActivityClassifier._extract_audio_features Demo.numeric (Some (map Fin qs)) = fs.
Proof.
  intros qs fs.
  assert (Hne : qs <> []) by discriminate.
  exact (conj Hne (@audio_features_signed Demo.numeric qs Hne)).
Defined.

(** C8, as the claim states it, fails on the window [1.0, -1.0].  The mean
    of the absolute values is 1 and their deviation is 0; [mean_amplitude]
    is 0 and [std_amplitude] is 1. *)
Lemma audio_features_abs_counterexample :
  let qs := [1%Q; (-1)%Q] in
  let fs := @extract_audio_features Demo.numeric (Some (map Fin qs)) in
  (FeatureSpec.mean_abs qs == 1)%Q
  /\ (@np_sqrt Demo.numeric (FeatureSpec.variance_abs qs) == 0)%Q
  /\ ~ (exists m, fs !! "mean_amplitude" = Some (Fin m)
                  /\ (m == FeatureSpec.mean_abs qs)%Q)
  /\ ~ (exists s, fs !! "std_amplitude" = Some (Fin s)
                  /\ (s == @np_sqrt Demo.numeric (FeatureSpec.variance_abs qs))%Q).
Proof.
  intros qs fs. split; [reflexivity |]. split; [reflexivity |]. split.
  - intros (m & Hm & Heq).
    assert (Hcode : fs !! "mean_amplitude" = Some (Fin (FeatureSpec.mean qs))).
    { apply (@mean_amplitude_signed Demo.numeric). discriminate. }
    rewrite Hcode in Hm. injection Hm as <-. discriminate Heq.
  - intros (s & Hs & Heq).
    assert (Hcode : fs !! "std_amplitude"
                    = Some (Fin (@np_sqrt Demo.numeric (FeatureSpec.variance qs)))).
    { apply (@std_amplitude_signed Demo.numeric). discriminate. }
    rewrite Hcode in Hs. injection Hs as <-. discriminate Heq.
Qed.

End StreamFacts.

(** ** The synchronised snapshot *)

Module SyncFacts.
Import SyncManager.

Section Snapshot.
Context `{Imaging}.

Lemma sync_tick_cases (sm : t) (i : tick_input) :
  let sm' := sync_tick sm (tick_obs i) (tick_audio i) (tick_now i) in
  sm' = sm \/ written_by i sm'.
Proof.
  intros sm'. subst sm'. unfold sync_tick, OBSCapture.get_current_frame.
  destruct (OBSCapture.current_frame (tick_obs i)) as [f |] eqn:Hf; [| by left].
  destruct (PyAudioCapture.get_latest_audio (tick_audio i) 500) as [a |] eqn:Ha;
    [| by left].
  right.
  destruct (StreamFacts.process_audio_some a) as (pa & Hpa).
  { by eapply BufferFacts.get_latest_audio_nonempty. }
  exists f, a, (default f (pil_resize_enhance f)), pa.
  cbn [current_video_frame current_audio_data last_sync_time].
  by rewrite Hpa.
Qed.

Lemma run_sync_snoc (sm : t) (ticks : list tick_input) (i : tick_input) :
  run_sync sm (ticks ++ [i])
    = sync_tick (run_sync sm ticks) (tick_obs i) (tick_audio i) (tick_now i).
Proof. unfold run_sync. by rewrite foldl_snoc. Qed.

Lemma get_sync_data_written (i : tick_input) (sm : t) :
  written_by i sm ->
  get_sync_data sm = (current_video_frame sm, current_audio_data sm, tick_now i).
Proof.
  intros (f & a & pf & pa & _ & _ & _ & _ & Hf & Ha & Ht).
  unfold get_sync_data. by rewrite Hf, Ha, Ht.
Qed.

(** C1.  After any number of iterations of the sync loop, the snapshot is
    either empty on both sides, and [get_sync_data] returns
    [(None, None, 0)], or it holds the processed frame and the processed
    audio that a single iteration read and wrote together with its clock
    reading, and [get_sync_data] returns exactly those three. *)
Theorem snapshot_consistent (ticks : list tick_input) :
  let sm := run_sync init ticks in
  (empty_snapshot sm /\ get_sync_data sm = (None, None, 0%Q))
  \/ (exists i, In i ticks /\ written_by i sm
                /\ get_sync_data sm
                   = (current_video_frame sm, current_audio_data sm, tick_now i)).
Proof.
  induction ticks as [| i ticks IH] using rev_ind; cbv zeta in *.
  - left. by split.
  - rewrite run_sync_snoc.
    destruct (sync_tick_cases (run_sync init ticks) i) as [Hsame | Hw];
      cbv zeta in *.
    + rewrite Hsame.
      destruct IH as [Hempty | (j & Hj & Hw & Hget)]; [by left |].
      right. exists j. split; [| done]. apply in_or_app. by left.
    + right. exists i. split; [apply in_or_app; right; by left |].
      split; [done |]. by apply get_sync_data_written.
Qed.

(** C9.  An iteration that finds no frame or no audio window leaves the
    snapshot as it was: frame, audio and timestamp. *)
Theorem sync_tick_skips (sm : t) (obs : OBSCapture.t) (pa : PyAudioCapture.t)
    (now : Q) :
  OBSCapture.current_frame obs = None
    \/ PyAudioCapture.get_latest_audio pa 500 = None ->
  sync_tick sm obs pa now = sm.
Proof.
  intros Hmissing. unfold sync_tick, OBSCapture.get_current_frame.
  destruct Hmissing as [-> | ->]; [done |].
  by destruct (OBSCapture.current_frame obs).
Qed.

End Snapshot.

(** A snapshot written earlier survives an iteration in which the video
    source has no frame, although the audio source has a window. *)
Lemma sync_tick_skips_witness :
  let sm := @SyncManager.Make Demo.imaging (Some 7%nat) (Some [Fin 1; Fin (-1)]) 3 in
  let obs := @OBSCapture.Make Demo.imaging None 0 in
  let pa := PyAudioCapture.start (PyAudioCapture.init 8 2 1) in
  (@OBSCapture.current_frame Demo.imaging obs = None
     \/ PyAudioCapture.get_latest_audio pa 500 = None)
  /\ @sync_tick Demo.imaging sm obs pa 4 = sm.
Proof.
  intros sm obs pa.
  assert (Hmissing : @OBSCapture.current_frame Demo.imaging obs = None
                     \/ PyAudioCapture.get_latest_audio pa 500 = None)
    by (left; reflexivity).
  exact (conj Hmissing (@sync_tick_skips Demo.imaging sm obs pa 4 Hmissing)).
Defined.

(** The first iterations after [start]: the buffer still holds its initial
    zero rows, the window is accepted, and the snapshot's audio is undefined
    in every sample. *)
Lemma sync_tick_silence :
  let obs := @OBSCapture.Make Demo.imaging (Some 1%nat) 0 in
  let pa := PyAudioCapture.start (PyAudioCapture.init 8 2 1) in
  PyAudioCapture.get_latest_audio pa 500 = Some [0; 0; 0; 0]
  /\ current_audio_data (@sync_tick Demo.imaging init obs pa 1)
     = Some [NaN; NaN; NaN; NaN].
Proof. split; reflexivity. Qed.

End SyncFacts.

(** ** The analysis cycle *)

Module AnalysisFacts.
Import ActivityClassifier.

Section Cycle.
Context `{Imaging} `{Numeric}.

(** The two outcomes of a cycle: nothing returned and nothing written, or a
    result returned and stored. *)
Lemma analyze_cases (ac : t) (sm : SyncManager.t) (t_classify t_store : Q) :
  analyze_current_activity ac sm t_classify t_store = (ac, None)
  \/ exists a, analyze_current_activity ac sm t_classify t_store
               = ({| last_activity := Some a; last_analysis_time := t_store |},
                  Some a).
Proof.
  unfold analyze_current_activity.
  destruct (SyncManager.get_sync_data sm) as [[[f |] [a |]] ts]; try by left.
  destruct (_classify_activity _ _ _) as [r |]; [right; by exists r | by left].
Qed.

Lemma analysis_step_keeps_result (ac : t) (c : cycle_input) :
  is_Some (get_current_activity ac) ->
  is_Some (get_current_activity (analysis_step ac c)).
Proof.
  intros Hsome. unfold analysis_step.
  destruct (analyze_cases ac (cycle_sync c) (cycle_classify_time c)
              (cycle_store_time c)) as [-> | (a & ->)]; [done |].
  simpl. by exists a.
Qed.

(** C10.  A call of [analyze_current_activity] that returns no result
    leaves [last_activity] and [last_analysis_time] as they were; hence,
    once a result has been stored, [get_current_activity] returns a result
    after any further sequence of cycles. *)
Theorem failed_analysis_keeps_result :
  (forall (ac : t) (sm : SyncManager.t) (t_classify t_store : Q),
     snd (analyze_current_activity ac sm t_classify t_store) = None ->
     fst (analyze_current_activity ac sm t_classify t_store) = ac)
  /\ (forall (ac : t) (cycles : list cycle_input),
        is_Some (get_current_activity ac) ->
        is_Some (get_current_activity (run_analysis ac cycles))).
Proof.
  split.
  - intros ac sm t1 t2.
    destruct (analyze_cases ac sm t1 t2) as [-> | (a & ->)]; [done |].
    simpl. discriminate.
  - intros ac cycles. revert ac.
    induction cycles as [| c cycles IH]; intros ac Hsome; [done |].
    simpl. apply IH. by apply analysis_step_keeps_result.
Qed.

End Cycle.

(** A cycle on the window [1.0, -1.0] publishes "video-call"; a later cycle
    on an empty snapshot returns nothing and the result stays. *)
Lemma failed_analysis_keeps_result_witness :
  let sm := @SyncManager.Make Demo.imaging (Some 7%nat) (Some [Fin 1; Fin (-1)]) 3 in
  let ac := @analysis_step Demo.imaging Demo.numeric init (Cycle sm 5 6) in
  let failed := @Cycle Demo.imaging SyncManager.init 65 66 in
  (exists a, get_current_activity ac = Some a /\ type a = Label.video_call)
  /\ snd (@analyze_current_activity Demo.imaging Demo.numeric ac
            SyncManager.init 65 66) = None
  /\ fst (@analyze_current_activity Demo.imaging Demo.numeric ac
            SyncManager.init 65 66) = ac
  /\ is_Some (get_current_activity
                (@run_analysis Demo.imaging Demo.numeric ac [failed; failed])).
Proof.
  intros sm ac failed.
  assert (Hpub : exists a, get_current_activity ac = Some a
                           /\ type a = Label.video_call)
    by (eexists; split; reflexivity).
  assert (Hnone : snd (@analyze_current_activity Demo.imaging Demo.numeric ac
                         SyncManager.init 65 66) = None) by reflexivity.
  assert (Hsome : is_Some (get_current_activity ac))
    by (destruct Hpub as (a & Ha & _); by exists a).
  destruct (@failed_analysis_keeps_result Demo.imaging Demo.numeric) as [Hkeep Hrun].
  exact (conj Hpub (conj Hnone (conj (Hkeep ac SyncManager.init 65%Q 66%Q Hnone)
                                     (Hrun ac [failed; failed] Hsome)))).
Defined.

End AnalysisFacts.

(** ** The audio device *)

Module DeviceFacts.
Import PyAudioCapture.


Lemma concat_length_uniform (rows : list chunk) (n : nat) :
  Forall (fun row => length row = n) rows ->
  length (concat rows) = (length rows * n)%nat.
Proof.
  induction rows as [| r rows IH]; intros Hall; [done |].
  apply Forall_cons in Hall as [Hr Hrows]. simpl.
  rewrite length_app, Hr, IH by done. lia.
Qed.

(** Whatever is asked, the rows read are rows of the buffer, and there are
    at most [capacity] of them. *)
Lemma latest_rows_bounded (st : t) (k : Z) :
  well_formed st ->
  (length (latest_rows st k) <= Z.to_nat (buffer_chunks st))%nat
  /\ Forall (fun row => length row = Z.to_nat (chunk_size st)) (latest_rows st k).
Proof.
  intros [Hcs Hcap Hlen Hidx Hrows]. unfold latest_rows.
  pose proof (Z.mod_pos_bound (buffer_index st - k) (buffer_chunks st) Hcap) as Hstart.
  destruct (_ <? _) eqn:Hlt.
  - unfold slice. split.
    + rewrite length_take, length_drop. lia.
    + by apply Forall_take, Forall_drop.
  - apply Z.ltb_ge in Hlt. unfold slice_from, slice_to. split.
    + rewrite length_app, length_take, length_drop. lia.
    + apply Forall_app. split; [by apply Forall_drop | by apply Forall_take].
Qed.

(** X2.  For every duration, negative ones included, a read that returns
    audio returns whole rows: between one row and the capacity of the
    buffer. *)
Theorem get_latest_audio_whole_rows (st : t) (d : Z) (a : list Z) :
  well_formed st -> get_latest_audio st d = Some a ->
  exists rows : nat,
    (1 <= rows <= Z.to_nat (buffer_chunks st))%nat
    /\ length a = (rows * Z.to_nat (chunk_size st))%nat.
Proof.
  intros Hwf Hget.
  pose proof (BufferFacts.get_latest_audio_nonempty st d a Hget) as Hne.
  unfold get_latest_audio in Hget.
  destruct (negb (is_streaming st)); [done |].
  destruct (0 <? _); [| done]. injection Hget as <-.
  destruct (latest_rows_bounded st (chunks_needed st d) Hwf) as [Hlen Hrows].
  exists (length (latest_rows st (chunks_needed st d))). split.
  - split; [| done].
    destruct (latest_rows st (chunks_needed st d)); [done | simpl; lia].
  - by apply concat_length_uniform.
Qed.

Lemma get_latest_audio_whole_rows_witness :
  let st := start (init 8 2 1) in
  well_formed st
  /\ get_latest_audio st (-300) = Some [0; 0; 0; 0; 0; 0]
  /\ exists rows : nat,
       (1 <= rows <= Z.to_nat (buffer_chunks st))%nat
       /\ length [0; 0; 0; 0; 0; 0] = (rows * Z.to_nat (chunk_size st))%nat.
Proof.
  intros st.
  assert (Hwf : well_formed st) by (apply BufferFacts.init_well_formed; reflexivity).
  assert (Hget : get_latest_audio st (-300) = Some [0; 0; 0; 0; 0; 0]) by reflexivity.
  exact (conj Hwf (conj Hget (get_latest_audio_whole_rows st (-300) _ Hwf Hget))).
Defined.







Section StartStop.
Variable device : Z -> PyAudioDevice.open_result.

Lemma start_body_default (f g : PyAudioDevice.t -> PyAudioDevice.t) (d : PyAudioDevice.t) :
  PyAudioDevice.device_index d = 0 ->
  PyAudioDevice.start_body device f d = PyAudioDevice.start_body device g d.
Proof.
  intros Hzero. unfold PyAudioDevice.start_body.
  destruct (is_streaming _); [done |].
  destruct (device _); simpl; rewrite ?Hzero; done.
Qed.

(** The definition of [start] ties the knot of the recursive call. *)
Lemma start_unfold (d : PyAudioDevice.t) :
  PyAudioDevice.start device d
    = PyAudioDevice.start_body device (PyAudioDevice.start device) d.
Proof.
  unfold PyAudioDevice.start at 1. unfold PyAudioDevice.start_body at 1.
  unfold PyAudioDevice.start_body at 3.
  destruct (is_streaming _); [done |].
  destruct (device (PyAudioDevice.device_index d)); simpl; try done.
  all: destruct (PyAudioDevice.device_index d =? 0); simpl; [done |].
  all: unfold PyAudioDevice.start; symmetry; by apply start_body_default.
Qed.

(** X5.  [start] on a capture that is not streaming: it streams afterwards
    exactly when the configured device opens, or the configured device is
    not device 0 and device 0 opens; the device index is kept in the first
    case and is 0 in every other; the buffer and the write index are not
    touched. *)
Theorem start_falls_back_to_default (d : PyAudioDevice.t) :
  is_streaming (PyAudioDevice.capture d) = false ->
  let d' := PyAudioDevice.start device d in
  (is_streaming (PyAudioDevice.capture d') = true <->
     device (PyAudioDevice.device_index d) = PyAudioDevice.Opened
     \/ (PyAudioDevice.device_index d <> 0 /\ device 0 = PyAudioDevice.Opened))
  /\ (device (PyAudioDevice.device_index d) = PyAudioDevice.Opened ->
      PyAudioDevice.device_index d' = PyAudioDevice.device_index d)
  /\ (device (PyAudioDevice.device_index d) <> PyAudioDevice.Opened ->
      PyAudioDevice.device_index d' = 0)
  /\ audio_buffer (PyAudioDevice.capture d') = audio_buffer (PyAudioDevice.capture d)
  /\ buffer_index (PyAudioDevice.capture d') = buffer_index (PyAudioDevice.capture d).
Proof.
  intros Hoff d'. subst d'.
  unfold PyAudioDevice.start, PyAudioDevice.start_body. rewrite Hoff.
  destruct (device (PyAudioDevice.device_index d)) eqn:Hdev; simpl.
  3: { repeat split; try done. by left. }
  all: destruct (Z.eqb_spec (PyAudioDevice.device_index d) 0) as [Hzero | Hnz]; simpl.
  all: rewrite ?Hoff; try rewrite Hzero in *.
  all: try (destruct (device 0) eqn:Hdef; simpl; rewrite ?Hoff).
  all: repeat split; try done; try congruence.
  all: try (intros [Habs | [Habs1 Habs2]]; congruence).
  all: try (right; done).
Qed.

(** X6.  [stop] on a streaming capture makes every read return nothing, but
    it keeps the buffer: once the device is started again, a read returns
    what it returned before the stop, audio recorded before the stop
    included. *)
Theorem stop_keeps_recorded_audio (d : PyAudioDevice.t) (duration_ms : Z) :
  is_streaming (PyAudioDevice.capture d) = true ->
  PyAudioDevice.stream_open d = true ->
  device (PyAudioDevice.device_index d) = PyAudioDevice.Opened ->
  PyAudioDevice.get_latest_audio (PyAudioDevice.stop d) duration_ms = None
  /\ PyAudioDevice.stop (PyAudioDevice.stop d) = PyAudioDevice.stop d
  /\ PyAudioDevice.get_latest_audio
       (PyAudioDevice.start device (PyAudioDevice.stop d)) duration_ms
     = PyAudioDevice.get_latest_audio d duration_ms.
Proof.
  intros Hon Hstream Hdev.
  assert (Hstop : PyAudioDevice.stop d
                  = {| PyAudioDevice.capture :=
                         PyAudioDevice.set_streaming false (PyAudioDevice.capture d);
                       PyAudioDevice.device_index := PyAudioDevice.device_index d;
                       PyAudioDevice.stream_open := false |}).
  { unfold PyAudioDevice.stop. by rewrite Hon, Hstream. }
  rewrite Hstop. split; [done |]. split; [done |].
  unfold PyAudioDevice.start, PyAudioDevice.start_body.
  cbn [PyAudioDevice.capture PyAudioDevice.device_index PyAudioDevice.set_streaming
       is_streaming].
  rewrite Hdev.
  unfold PyAudioDevice.get_latest_audio, get_latest_audio, latest_rows, chunks_needed.
  simpl. by rewrite Hon.
Qed.

End StartStop.

(** Device 3 cannot be opened, device 0 can: the capture ends up streaming
    on device 0. *)
Lemma start_falls_back_to_default_witness :
  let device := fun i : Z =>
    if i =? 0 then PyAudioDevice.Opened else PyAudioDevice.OpenFails in
  let d := PyAudioDevice.init (Some 3) 8 2 1 in
  let d' := PyAudioDevice.start device d in
  is_streaming (PyAudioDevice.capture d) = false
  /\ is_streaming (PyAudioDevice.capture d') = true
  /\ PyAudioDevice.device_index d' = 0.
Proof.
  intros device d d'.
  assert (Hoff : is_streaming (PyAudioDevice.capture d) = false) by reflexivity.
  destruct (start_falls_back_to_default device d Hoff) as (Hiff & _ & Hidx & _).
  split; [exact Hoff |]. split.
  - apply Hiff. right. split; [discriminate | reflexivity].
  - apply Hidx. discriminate.
Defined.

(** A capture that recorded five chunks is stopped and started again. *)
Lemma stop_keeps_recorded_audio_witness :
  let device := fun _ : Z => PyAudioDevice.Opened in
  exists d,
    (PyAudioDevice.callback (PyAudioDevice.start device (PyAudioDevice.init None 8 2 1))
       [1; 2] ≫= fun d1 => PyAudioDevice.callback d1 [3; 4]) = Some d
    /\ PyAudioDevice.get_latest_audio d 500 = Some [1; 2; 3; 4]
    /\ PyAudioDevice.get_latest_audio (PyAudioDevice.stop d) 500 = None
    /\ PyAudioDevice.get_latest_audio
         (PyAudioDevice.start device (PyAudioDevice.stop d)) 500
       = Some [1; 2; 3; 4].
Proof.
  intros device. eexists. split; [reflexivity |].
  split; [reflexivity |].
  match goal with
  | |- PyAudioDevice.get_latest_audio (PyAudioDevice.stop ?d) _ = _ /\ _ =>
      destruct (stop_keeps_recorded_audio device d 500 eq_refl eq_refl eq_refl)
        as (Hnone & _ & Hsame)
  end.
  split; [exact Hnone |]. rewrite Hsame. reflexivity.
Defined.

End DeviceFacts.

(** ** The video source and the life cycle of the capture *)

Module LifecycleFacts.

Lemma get_sources_not_connected (b : OBSConnection.backend) (o : OBSConnection.t) :
  OBSConnection.connected o = false -> OBSConnection._get_sources b o = o.
Proof. intros Hoff. unfold OBSConnection._get_sources. by rewrite Hoff. Qed.

Lemma init_sources (b : OBSConnection.backend) :
  OBSConnection.video_sources (OBSConnection.init b) = []
  /\ OBSConnection.media_sources (OBSConnection.init b) = [].
Proof.
  unfold OBSConnection.init, OBSConnection._connect.
  destruct (OBSConnection.connect b); done.
Qed.

Lemma init_not_capturing (b : OBSConnection.backend) :
  OBSConnection.is_capturing (OBSConnection.init b) = false.
Proof.
  unfold OBSConnection.init, OBSConnection._connect.
  destruct (OBSConnection.connect b); done.
Qed.

(** X7.  Whatever the OBS backend answers, a capture that has just been
    constructed knows no source: [_connect] asks for the sources before it
    sets [connected], and [_get_sources] returns at once when [connected]
    is not set.  The capture is connected exactly when the connection
    worked. *)
Theorem init_discovers_no_source (b : OBSConnection.backend) :
  OBSConnection.video_sources (OBSConnection.init b) = []
  /\ OBSConnection.media_sources (OBSConnection.init b) = []
  /\ (OBSConnection.connected (OBSConnection.init b) = true
      <-> OBSConnection.connect b = OBSConnection.Connects)
  /\ OBSConnection.is_capturing (OBSConnection.init b) = false.
Proof.
  split; [apply init_sources |]. split; [apply init_sources |].
  unfold OBSConnection.init, OBSConnection._connect.
  destruct (OBSConnection.connect b); simpl; done.
Qed.

Lemma names_of_kind_filter (name_key kind_key : string) (kinds : list string)
    (entries : list OBSConnection.entry) (names : list string) :
  OBSConnection.names_of_kind name_key kind_key kinds entries = Some names ->
  map Some names
    = map (fun e : OBSConnection.entry => e !! name_key)
          (filter (fun e => OBSConnection.of_kind kind_key kinds e = true) entries).
Proof.
  revert names. induction entries as [| e rest IH]; intros names Hnames.
  - by injection Hnames as <-.
  - simpl in Hnames. rewrite filter_cons.
    destruct (OBSConnection.of_kind kind_key kinds e) eqn:Hkind.
    + rewrite decide_True by done.
      destruct (e !! name_key) as [name |] eqn:Hname; [| done].
      destruct (OBSConnection.names_of_kind _ _ _ rest) as [ns |]; [| done].
      injection Hnames as <-. simpl. rewrite Hname. f_equal. by apply IH.
    + rewrite decide_False by done. by apply IH.
Qed.

(** X8.  Source discovery on a connected client falls back: when
    [GetSourcesList] raises and [get_input_list] answers, the video sources
    are the names of the inputs of kind [dshow_input] or [v4l2_input], in
    the order of the answer, and the media sources those of kind
    [ffmpeg_source] or [vlc_source]; when both calls raise, the lists are
    left as they were. *)
Theorem get_sources_falls_back (b : OBSConnection.backend) (o : OBSConnection.t) :
  OBSConnection.connected o = true -> OBSConnection.client o = true ->
  OBSConnection.sources_list b = None ->
  match OBSConnection.input_list b with
  | None => OBSConnection._get_sources b o = o
  | Some inputs =>
      forall video media,
        OBSConnection.names_of_kind "inputName" "inputKind"
          OBSConnection.video_kinds inputs = Some video ->
        OBSConnection.names_of_kind "inputName" "inputKind"
          OBSConnection.media_kinds inputs = Some media ->
        OBSConnection.video_sources (OBSConnection._get_sources b o) = video
        /\ OBSConnection.media_sources (OBSConnection._get_sources b o) = media
        /\ map Some video
           = map (fun e : OBSConnection.entry => e !! "inputName")
               (filter (fun e => OBSConnection.of_kind "inputKind"
                                   OBSConnection.video_kinds e = true) inputs)
  end.
Proof.
  intros Hconn Hclient Hsrc. unfold OBSConnection._get_sources.
  rewrite Hconn, Hclient, Hsrc. simpl.
  destruct (OBSConnection.input_list b) as [inputs |]; [| done].
  intros video media Hvideo Hmedia. simpl. rewrite Hvideo, Hmedia. simpl.
  split; [done |]. split; [done |]. by apply names_of_kind_filter.
Qed.

Lemma get_sources_falls_back_witness :
  let webcam : OBSConnection.entry :=
    <["inputName" := "Webcam"]> {["inputKind" := "v4l2_input"]} in
  let film : OBSConnection.entry :=
    <["inputName" := "Film"]> {["inputKind" := "ffmpeg_source"]} in
  let b := OBSConnection.Backend OBSConnection.Connects None (Some [film; webcam]) in
  let o := OBSConnection.init b in
  OBSConnection.connected o = true /\ OBSConnection.client o = true
  /\ OBSConnection.video_sources o = []
  /\ OBSConnection.video_sources (OBSConnection._get_sources b o) = ["Webcam"]
  /\ OBSConnection.media_sources (OBSConnection._get_sources b o) = ["Film"].
Proof.
  intros webcam film b o.
  assert (Hconn : OBSConnection.connected o = true) by reflexivity.
  assert (Hclient : OBSConnection.client o = true) by reflexivity.
  pose proof (get_sources_falls_back b o Hconn Hclient eq_refl) as Hfall.
  simpl in Hfall.
  destruct (Hfall ["Webcam"] ["Film"] eq_refl eq_refl) as (Hv & Hm & _).
  split; [exact Hconn |]. split; [exact Hclient |]. split; [reflexivity |].
  split; [exact Hv | exact Hm].
Defined.

(** X9.  A sync manager built on a capture that has just been constructed,
    as [init_app] builds it, never starts the video capture: [start] sets
    [is_running], and leaves the video capture exactly as the constructor
    left it, whatever OBS offers and whatever the audio device does. *)
Theorem start_never_starts_video (device : Z -> PyAudioDevice.open_result)
    (b : OBSConnection.backend) (audio : PyAudioDevice.t) :
  let s := SyncLifecycle.start device
             (SyncLifecycle.init audio (OBSConnection.init b)) in
  SyncLifecycle.is_running s = true
  /\ SyncLifecycle.obs_capture s = OBSConnection.init b
  /\ OBSConnection.is_capturing (SyncLifecycle.obs_capture s) = false
  /\ SyncLifecycle.pyaudio_capture s = PyAudioDevice.start device audio.
Proof.
  intros s. subst s. unfold SyncLifecycle.start, SyncLifecycle.init.
  cbn [SyncLifecycle.is_running SyncLifecycle.obs_capture SyncLifecycle.pyaudio_capture].
  destruct (init_sources b) as [Hvideo _]. rewrite Hvideo. simpl.
  repeat split. apply init_not_capturing.
Qed.

Lemma device_start_consistent (device : Z -> PyAudioDevice.open_result)
    (d : PyAudioDevice.t) :
  (PyAudioCapture.is_streaming (PyAudioDevice.capture d) = true ->
   PyAudioDevice.stream_open d = true) ->
  PyAudioCapture.is_streaming
    (PyAudioDevice.capture (PyAudioDevice.start device d)) = true ->
  PyAudioDevice.stream_open (PyAudioDevice.start device d) = true.
Proof.
  intros Hcons. unfold PyAudioDevice.start, PyAudioDevice.start_body.
  destruct (PyAudioCapture.is_streaming (PyAudioDevice.capture d)) eqn:Hon;
    [intros _; by apply Hcons |].
  destruct (device (PyAudioDevice.device_index d)); simpl; try done.
  all: destruct (PyAudioDevice.device_index d =? 0); simpl; rewrite ?Hon; try done.
  all: destruct (device 0); simpl; rewrite ?Hon; done.
Qed.

Lemma device_stop_off (d : PyAudioDevice.t) :
  (PyAudioCapture.is_streaming (PyAudioDevice.capture d) = true ->
   PyAudioDevice.stream_open d = true) ->
  PyAudioCapture.is_streaming (PyAudioDevice.capture (PyAudioDevice.stop d)) = false.
Proof.
  intros Hcons. unfold PyAudioDevice.stop.
  destruct (PyAudioCapture.is_streaming (PyAudioDevice.capture d)) eqn:Hon; simpl.
  - by rewrite Hcons.
  - done.
Qed.

(** X10.  One cycle of the sync manager.  After [start] and [stop] the
    manager is not running, the video capture is not capturing and the
    audio capture is not streaming; a second [stop] changes nothing, and a
    second [start] on a running manager changes nothing either. *)
Theorem start_stop_cycle (device : Z -> PyAudioDevice.open_result)
    (s : SyncLifecycle.t) :
  (PyAudioCapture.is_streaming
     (PyAudioDevice.capture (SyncLifecycle.pyaudio_capture s)) = true ->
   PyAudioDevice.stream_open (SyncLifecycle.pyaudio_capture s) = true) ->
  let s' := SyncLifecycle.stop (SyncLifecycle.start device s) in
  SyncLifecycle.is_running s' = false
  /\ OBSConnection.is_capturing (SyncLifecycle.obs_capture s') = false
  /\ PyAudioCapture.is_streaming
       (PyAudioDevice.capture (SyncLifecycle.pyaudio_capture s')) = false
  /\ SyncLifecycle.stop s' = s'
  /\ SyncLifecycle.start device (SyncLifecycle.start device s)
     = SyncLifecycle.start device s.
Proof.
  intros Hcons s'. subst s'.
  assert (Hrun : SyncLifecycle.is_running (SyncLifecycle.start device s) = true).
  { unfold SyncLifecycle.start. by destruct (SyncLifecycle.is_running s) eqn:Hr. }
  assert (Hstop : forall r, SyncLifecycle.is_running r = true ->
            SyncLifecycle.stop r
            = {| SyncLifecycle.is_running := false;
                 SyncLifecycle.pyaudio_capture :=
                   PyAudioDevice.stop (SyncLifecycle.pyaudio_capture r);
                 SyncLifecycle.obs_capture :=
                   OBSConnection.stop_capture (SyncLifecycle.obs_capture r) |}).
  { intros r Hr. unfold SyncLifecycle.stop. by rewrite Hr. }
  rewrite (Hstop _ Hrun).
  cbn [SyncLifecycle.is_running SyncLifecycle.obs_capture SyncLifecycle.pyaudio_capture].
  split; [done |]. split; [done |]. split; [| split].
  - apply device_stop_off. unfold SyncLifecycle.start.
    destruct (SyncLifecycle.is_running s); [done |].
    cbn [SyncLifecycle.pyaudio_capture]. by apply device_start_consistent.
  - done.
  - unfold SyncLifecycle.start at 1. by rewrite Hrun.
Qed.

Lemma start_stop_cycle_witness :
  let device := fun _ : Z => PyAudioDevice.Opened in
  let s := SyncLifecycle.init (PyAudioDevice.init None 8 2 1)
             (OBSConnection.init
                (OBSConnection.Backend OBSConnection.Connects None None)) in
  let s' := SyncLifecycle.stop (SyncLifecycle.start device s) in
  PyAudioCapture.is_streaming
    (PyAudioDevice.capture
       (SyncLifecycle.pyaudio_capture (SyncLifecycle.start device s))) = true
  /\ SyncLifecycle.is_running s' = false
  /\ PyAudioCapture.is_streaming
       (PyAudioDevice.capture (SyncLifecycle.pyaudio_capture s')) = false
  /\ SyncLifecycle.stop s' = s'.
Proof.
  intros device s s'.
  assert (Hcons : PyAudioCapture.is_streaming
                    (PyAudioDevice.capture (SyncLifecycle.pyaudio_capture s)) = true ->
                  PyAudioDevice.stream_open (SyncLifecycle.pyaudio_capture s) = true)
    by discriminate.
  destruct (start_stop_cycle device s Hcons) as (Hrun & _ & Hoff & Hidem & _).
  split; [reflexivity |]. split; [exact Hrun |]. split; [exact Hoff | exact Hidem].
Defined.

End LifecycleFacts.

(** ** Features of a normalised window *)

Module WindowFacts.
Import StreamProcessor.

Lemma total_bounded (qs : list Q) (bound : Q) :
  (forall q, In q qs -> (q <= bound)%Q) ->
  (FeatureSpec.total qs <= FeatureSpec.count qs * bound)%Q.
Proof.
  unfold FeatureSpec.count.
  induction qs as [| q qs IH]; intros Hall.
  - simpl. rewrite Qmult_0_l. apply Qle_refl.
  - cbn [FeatureSpec.total foldr length].
    fold (FeatureSpec.total qs).
    assert (Hq : (q <= bound)%Q) by (apply Hall; by left).
    assert (Hqs : (FeatureSpec.total qs <= inject_Z (Z.of_nat (length qs)) * bound)%Q)
      by (apply IH; intros x Hx; apply Hall; by right).
    assert (Heq : (inject_Z (Z.of_nat (S (length qs))) * bound
                   == bound + inject_Z (Z.of_nat (length qs)) * bound)%Q).
    { rewrite Nat2Z.inj_succ. unfold Z.succ. rewrite inject_Z_plus. ring. }
    rewrite Heq. by apply Qplus_le_compat.
Qed.

Lemma total_nonneg (qs : list Q) :
  (forall q, In q qs -> (0 <= q)%Q) -> (0 <= FeatureSpec.total qs)%Q.
Proof.
  induction qs as [| q qs IH]; intros Hall; [done |].
  cbn [FeatureSpec.total foldr]. fold (FeatureSpec.total qs).
  replace 0%Q with (0 + 0)%Q by done. apply Qplus_le_compat.
  - apply Hall. by left.
  - apply IH. intros x Hx. apply Hall. by right.
Qed.

Lemma total_member (qs : list Q) (q : Q) :
  (forall x, In x qs -> (0 <= x)%Q) -> In q qs -> (q <= FeatureSpec.total qs)%Q.
Proof.
  induction qs as [| a qs IH]; intros Hall Hin; [done |].
  cbn [FeatureSpec.total foldr]. fold (FeatureSpec.total qs).
  assert (Hrest : (0 <= FeatureSpec.total qs)%Q).
  { apply total_nonneg. intros x Hx. apply Hall. by right. }
  assert (Ha : (0 <= a)%Q) by (apply Hall; by left).
  destruct Hin as [<- | Hin].
  - rewrite <- (Qplus_0_r a) at 1. apply Qplus_le_compat; [apply Qle_refl | done].
  - rewrite <- (Qplus_0_l q). apply Qplus_le_compat; [done |].
    apply IH; [| done]. intros x Hx. apply Hall. by right.
Qed.

Lemma square_abs (q : Q) : (q * q == Qabs q * Qabs q)%Q.
Proof. rewrite <- Qabs_Qmult. symmetry. apply Qabs_pos. unfold Qle. simpl. nia. Qed.

Lemma square_bounded (q bound : Q) :
  (Qabs q <= bound)%Q -> (q * q <= bound * bound)%Q.
Proof.
  intros Hq. rewrite square_abs.
  pose proof (Qabs_nonneg q) as Hnn.
  by apply Qmult_le_compat_nonneg.
Qed.

Lemma count_positive (qs : list Q) : qs <> [] -> (0 < FeatureSpec.count qs)%Q.
Proof.
  intros Hne. destruct qs as [| q qs]; [done |].
  unfold FeatureSpec.count, Qlt. simpl. lia.
Qed.


Section Lookups.
Context `{Numeric}.

Lemma features_of_window (a : Q) (rest : list Q) :
  let xs := map Fin (a :: rest) in
  extract_audio_features (Some xs)
  = <["mean_amplitude" := np_mean xs]>
      (<["std_amplitude" := np_std xs]>
      (<["max_amplitude" := np_max (map fabs xs)]>
      (<["energy" := fdiv_count (np_sum (map fsquare xs)) (length xs)]>
      (<["zero_crossing_rate" :=
           fdiv_count (count_to_float (count_true (np_diff (map signbit xs))))
                      (length xs)]> ∅)))).
Proof. done. Qed.

Lemma energy_lookup (qs : list Q) :
  qs <> [] ->
  extract_audio_features (Some (map Fin qs)) !! "energy"
    = Some (Fin (FeatureSpec.mean_square qs)).
Proof.
  intros Hne. destruct qs as [| a rest]; [done |].
  rewrite features_of_window. cbv zeta.
  do 3 rewrite lookup_insert_ne by done. rewrite lookup_insert_eq.
  rewrite map_map. simpl.
  rewrite <- (map_map (fun q => (q * q)%Q) Fin).
  rewrite StreamFacts.np_sum_finite, length_map. done.
Qed.

Lemma zero_crossing_lookup (qs : list Q) :
  qs <> [] ->
  extract_audio_features (Some (map Fin qs)) !! "zero_crossing_rate"
    = Some (Fin (FeatureSpec.zero_crossing_rate qs)).
Proof.
  intros Hne. destruct qs as [| a rest]; [done |].
  rewrite features_of_window. cbv zeta.
  do 4 rewrite lookup_insert_ne by done. rewrite lookup_insert_eq.
  rewrite StreamFacts.sign_changes_count, length_map. done.
Qed.

Lemma max_amplitude_lookup (qs : list Q) :
  qs <> [] ->
  exists m, extract_audio_features (Some (map Fin qs)) !! "max_amplitude"
              = Some (Fin m)
            /\ FeatureSpec.is_max_abs m qs.
Proof.
  intros Hne. destruct qs as [| a rest]; [done |].
  rewrite features_of_window. cbv zeta.
  do 2 rewrite lookup_insert_ne by done. rewrite lookup_insert_eq.
  destruct (StreamFacts.np_max_finite a rest) as (m & Hm & Hmax).
  exists m. split; [| done]. f_equal. exact Hm.
Qed.


End Lookups.


(** *** Normalisation followed by extraction *)

Lemma max_of_attained (a : Z) (xs : list Z) :
  max_of a xs = a \/ In (max_of a xs) xs.
Proof.
  unfold max_of. induction xs as [| x xs IH]; simpl; [by left |].
  destruct (Z.max_spec x (foldr Z.max a xs)) as [[_ ->] | [_ ->]].
  - destruct IH as [-> | Hin]; [by left | right; by right].
  - right. by left.
Qed.

Lemma peak_attained (xs : list Z) :
  xs <> [] -> Window.symmetric xs -> exists x, In x xs /\ Z.abs x = peak xs.
Proof.
  intros Hne Hall. destruct xs as [| a rest]; [done |].
  apply Forall_cons in Hall as [Ha Hrest]. unfold peak. simpl.
  destruct (max_of_attained (abs16 a) (map abs16 rest)) as [-> | Hin].
  - exists a. split; [by left |]. by rewrite StreamFacts.abs16_small.
  - apply in_map_iff in Hin as (x & Hx & Hin).
    exists x. split; [by right |]. rewrite <- Hx.
    rewrite StreamFacts.abs16_small; [done |].
    rewrite Forall_forall in Hrest. apply Hrest. by apply list_elem_of_In.
Qed.

Lemma peak_positive (xs : list Z) :
  xs <> [] -> Window.symmetric xs -> peak xs <> 0 -> 0 < peak xs.
Proof.
  intros Hne Hall Hpeak.
  destruct (peak_attained xs Hne Hall) as (x & _ & Hx). lia.
Qed.

Lemma process_audio_scaled (xs : list Z) :
  xs <> [] -> peak xs <> 0 ->
  process_audio (Some xs) = Some (map Fin (Window.scaled (peak xs) xs)).
Proof.
  intros Hne Hpeak. unfold process_audio, Window.scaled.
  destruct xs as [| a rest]; [done |]. simpl Nat.eqb. cbv iota.
  f_equal. rewrite map_map. apply map_ext. intros x.
  unfold int_true_divide.
  by replace (peak (a :: rest) =? 0) with false by (symmetry; by apply Z.eqb_neq).
Qed.

Lemma scaled_abs_bounded (p x : Z) :
  0 < p -> Z.abs x <= p -> (Qabs (inject_Z x / inject_Z p) <= 1)%Q.
Proof.
  intros Hp Hx. apply Qabs_Qle_condition.
  assert (Hpos : (0 < inject_Z p)%Q) by (unfold Qlt; simpl; lia).
  split.
  - apply Qle_shift_div_l; [done |]. unfold Qle; simpl. lia.
  - apply Qle_shift_div_r; [done |]. unfold Qle; simpl. lia.
Qed.

Lemma scaled_abs_peak (p x : Z) :
  0 < p -> Z.abs x = p -> (Qabs (inject_Z x / inject_Z p) == 1)%Q.
Proof.
  intros Hp Hx.
  assert (Hnz : ~ (inject_Z p == 0)%Q) by (unfold Qeq; simpl; lia).
  destruct (Z.abs_spec x) as [[_ Heq] | [_ Heq]]; rewrite Heq in Hx; clear Heq.
  - subst p. assert (Hone : (inject_Z x / inject_Z x == 1)%Q) by by field.
    by rewrite Hone.
  - assert (Hxp : x = - p) by lia. subst x.
    assert (Hone : (inject_Z (- p) / inject_Z p == - (1))%Q).
    { rewrite inject_Z_opp. by field. }
    by rewrite Hone.
Qed.

Lemma negative_scaled (p x : Z) :
  0 < p ->
  FeatureSpec.negative (inject_Z x / inject_Z p) = FeatureSpec.negative (inject_Z x).
Proof.
  intros Hp. unfold FeatureSpec.negative.
  assert (Hpos : (0 < inject_Z p)%Q) by (unfold Qlt; simpl; lia).
  destruct (Qltb (inject_Z x) 0) eqn:Hx.
  - apply Qltb_true. apply Qltb_true in Hx.
    apply Qlt_shift_div_r; [done |]. by rewrite Qmult_0_l.
  - apply Qltb_false. apply Qltb_false in Hx.
    apply Qle_shift_div_l; [done |]. by rewrite Qmult_0_l.
Qed.

Lemma sign_changes_signs (qs rs : list Q) :
  map FeatureSpec.negative qs = map FeatureSpec.negative rs ->
  FeatureSpec.sign_changes qs = FeatureSpec.sign_changes rs.
Proof.
  revert rs. induction qs as [| a [| b qs] IH]; intros [| c [| d rs]] Hsigns;
    try done.
  injection Hsigns as Ha Hb Hrest.
  change (FeatureSpec.sign_changes (a :: b :: qs))
    with ((if Bool.eqb (FeatureSpec.negative a) (FeatureSpec.negative b) then 0 else 1)
          + FeatureSpec.sign_changes (b :: qs))%nat.
  change (FeatureSpec.sign_changes (c :: d :: rs))
    with ((if Bool.eqb (FeatureSpec.negative c) (FeatureSpec.negative d) then 0 else 1)
          + FeatureSpec.sign_changes (d :: rs))%nat.
  rewrite Ha, Hb. f_equal. apply IH. simpl. by rewrite Hb, Hrest.
Qed.

Section Normalised.
Context `{Numeric}.

(** X12.  A window with a non-zero peak and no sample equal to [-32768],
    once normalised, has [max_amplitude] exactly 1 and an energy above 0 and
    at most 1. *)
Theorem normalised_window_amplitude (xs : list Z) :
  xs <> [] -> Window.symmetric xs -> peak xs <> 0 ->
  exists ys m e,
    process_audio (Some xs) = Some ys
    /\ extract_audio_features (Some ys) !! "max_amplitude" = Some (Fin m)
    /\ (m == 1)%Q
    /\ extract_audio_features (Some ys) !! "energy" = Some (Fin e)
    /\ (0 < e)%Q /\ (e <= 1)%Q.
Proof.
  intros Hne Hsym Hpeak.
  pose proof (peak_positive xs Hne Hsym Hpeak) as Hpos.
  set (qs := Window.scaled (peak xs) xs).
  assert (Hqne : qs <> []) by (subst qs; unfold Window.scaled; by destruct xs).
  assert (Hbound : forall q, In q qs -> (Qabs q <= 1)%Q).
  { intros q Hq. apply in_map_iff in Hq as (x & <- & Hx).
    apply scaled_abs_bounded; [done |].
    pose proof (StreamFacts.peak_upper xs Hsym) as Hup.
    rewrite Forall_forall in Hup. apply Hup. by apply list_elem_of_In. }
  destruct (peak_attained xs Hne Hsym) as (x & Hx & Hxp).
  set (top := (inject_Z x / inject_Z (peak xs))%Q).
  assert (Htop : In top qs) by (apply in_map_iff; by exists x).
  assert (Hone : (Qabs top == 1)%Q) by by apply scaled_abs_peak.
  destruct (max_amplitude_lookup qs Hqne) as (m & Hm & Hup & (w & Hw & Hwm)).
  exists (map Fin qs), m, (FeatureSpec.mean_square qs).
  split; [by apply process_audio_scaled |]. split; [exact Hm |].
  split.
  { apply Qle_antisym.
    - rewrite <- Hwm. by apply Hbound.
    - rewrite <- Hone. by apply Hup. }
  split; [by apply energy_lookup |].
  pose proof (count_positive qs Hqne) as Hcount.
  assert (Hsq : forall s, In s (map (fun q => (q * q)%Q) qs) -> (0 <= s)%Q).
  { intros s Hs. apply in_map_iff in Hs as (q & <- & _).
    unfold Qle. simpl. nia. }
  unfold FeatureSpec.mean_square. split.
  - apply Qlt_shift_div_l; [done |]. rewrite Qmult_0_l.
    apply Qlt_le_trans with (top * top)%Q.
    + rewrite square_abs, Hone. reflexivity.
    + apply total_member; [done |]. apply in_map_iff. by exists top.
  - apply Qle_shift_div_r; [done |]. rewrite Qmult_1_l.
    replace (FeatureSpec.count qs)
      with (FeatureSpec.count (map (fun q => (q * q)%Q) qs))
      by (unfold FeatureSpec.count; by rewrite length_map).
    rewrite <- (Qmult_1_r (FeatureSpec.count _)).
    apply total_bounded. intros s Hs.
    apply in_map_iff in Hs as (q & <- & Hq).
    rewrite <- (Qmult_1_l 1). apply square_bounded. by apply Hbound.
Qed.

(** X13.  Normalisation keeps the zero crossings: for a window with a
    non-zero peak and no sample equal to [-32768], the zero-crossing rate
    extracted from the normalised window is that of the integer samples. *)
Theorem normalised_window_zero_crossings (xs : list Z) :
  xs <> [] -> Window.symmetric xs -> peak xs <> 0 ->
  exists ys,
    process_audio (Some xs) = Some ys
    /\ extract_audio_features (Some ys) !! "zero_crossing_rate"
       = Some (Fin (FeatureSpec.zero_crossing_rate (Window.raw xs))).
Proof.
  intros Hne Hsym Hpeak.
  pose proof (peak_positive xs Hne Hsym Hpeak) as Hpos.
  exists (map Fin (Window.scaled (peak xs) xs)).
  split; [by apply process_audio_scaled |].
  rewrite zero_crossing_lookup by (unfold Window.scaled; by destruct xs).
  do 2 f_equal. unfold FeatureSpec.zero_crossing_rate, FeatureSpec.count.
  rewrite (sign_changes_signs (Window.scaled (peak xs) xs) (Window.raw xs)).
  - unfold Window.scaled, Window.raw. by rewrite !length_map.
  - unfold Window.scaled, Window.raw. rewrite !map_map.
    apply map_ext. intros x. by apply negative_scaled.
Qed.

End Normalised.

Lemma normalised_window_amplitude_witness :
  let xs := [100; -200; 50] in
  (xs <> [] /\ Window.symmetric xs /\ peak xs <> 0)
  /\ exists ys m e,
       process_audio (Some xs) = Some ys
       /\ @extract_audio_features Demo.numeric (Some ys) !! "max_amplitude"
          = Some (Fin m)
       /\ (m == 1)%Q
       /\ @extract_audio_features Demo.numeric (Some ys) !! "energy" = Some (Fin e)
       /\ (0 < e)%Q /\ (e <= 1)%Q.
Proof.
  intros xs.
  assert (Hne : xs <> []) by discriminate.
  assert (Hsym : Window.symmetric xs) by (repeat constructor; lia).
  assert (Hpeak : peak xs <> 0) by (vm_compute; discriminate).
  exact (conj (conj Hne (conj Hsym Hpeak))
              (@normalised_window_amplitude Demo.numeric xs Hne Hsym Hpeak)).
Defined.

Lemma normalised_window_zero_crossings_witness :
  let xs := [100; -200; 50] in
  (xs <> [] /\ Window.symmetric xs /\ peak xs <> 0)
  /\ (FeatureSpec.zero_crossing_rate (Window.raw xs) == 2 # 3)%Q
  /\ exists ys,
       process_audio (Some xs) = Some ys
       /\ @extract_audio_features Demo.numeric (Some ys) !! "zero_crossing_rate"
          = Some (Fin (FeatureSpec.zero_crossing_rate (Window.raw xs))).
Proof.
  intros xs.
  assert (Hne : xs <> []) by discriminate.
  assert (Hsym : Window.symmetric xs) by (repeat constructor; lia).
  assert (Hpeak : peak xs <> 0) by (vm_compute; discriminate).
  split; [exact (conj Hne (conj Hsym Hpeak)) |]. split; [reflexivity |].
  exact (@normalised_window_zero_crossings Demo.numeric xs Hne Hsym Hpeak).
Defined.

End WindowFacts.

(** ** From the snapshot to the published activity *)

Module PipelineFacts.
Import ActivityClassifier.

Lemma capped_range (base cap : Q) (energy : fval) :
  fgt energy (Fin (1 # 10)) = true ->
  (5 # 10 <= base)%Q -> (6 # 10 <= cap)%Q -> (cap <= 95 # 100)%Q ->
  (6 # 10 <= FeatureSpec.capped base cap energy)%Q
  /\ (FeatureSpec.capped base cap energy <= 95 # 100)%Q.
Proof.
  intros Hgt Hbase Hlo Hhi. destruct energy as [e | | |]; simpl in *; try done.
  apply Qltb_true in Hgt. split.
  - apply Q.min_glb; [| done].
    apply Qle_trans with ((5 # 10) + (1 # 10))%Q; [done |].
    apply Qplus_le_compat; [done | by apply Qlt_le_weak].
  - apply Qle_trans with cap; [apply Q.le_min_r | done].
Qed.


Lemma audio_rule_range (af : features) :
  fgt (dict_get af "energy") (Fin (1 # 10)) = true ->
  Cascade.in_range (audio_rule af).
Proof.
  intros Hgt. unfold audio_rule, Cascade.in_range.
  destruct (fgt (dict_get af "zero_crossing_rate") (Fin (2 # 10))); cbn [fst snd].
  - split; [right; by left |].
    destruct (py_min_capped (7 # 10) (95 # 100) _ _ Hgt) as (m & -> & Hm).
    exists m. split; [done |]. rewrite Hm. by apply capped_range.
  - split; [right; right; by left |].
    destruct (py_min_capped (65 # 100) (9 # 10) _ _ Hgt) as (m & -> & Hm).
    exists m. split; [done |]. rewrite Hm. by apply capped_range.
Qed.

Lemma video_rule_range (vf : features) : Cascade.in_range (video_rule vf).
Proof.
  unfold video_rule, Cascade.in_range.
  destruct (flt (dict_get vf "std_intensity") (Fin 20)).
  - destruct (flt (dict_get vf "mean_intensity") (Fin 100)); cbn [fst snd].
    + split; [by left |]. by eexists.
    + split; [do 3 right; by left |]. by eexists.
  - destruct (fgt (dict_get vf "std_intensity") (Fin 50)); cbn [fst snd].
    + split; [right; right; by left |]. by eexists.
    + split; [do 4 right; by left |]. by eexists.
Qed.

Lemma combine_rule_range (vf af : features) (chosen : string * fval) :
  Cascade.in_range chosen -> Cascade.in_range (combine_rule vf af chosen).
Proof.
  intros Hchosen. unfold combine_rule.
  destruct (truthy vf && truthy af); [| done].
  destruct (_ && _); [| done].
  split; [right; by left |]. by eexists.
Qed.

Lemma rule_based_range (vf af : features) (now : Q) :
  let r := _rule_based_classification vf af now in
  Cascade.in_range (type r, confidence r)
  /\ timestamp r = py_int now /\ duration r = 0.
Proof.
  intros r. subst r. unfold _rule_based_classification.
  destruct (negb (truthy vf) && negb (truthy af)).
  - cbn [type confidence timestamp duration].
    split; [| done]. split; [by left |]. by eexists.
  - match goal with
    | |- context [combine_rule vf af ?chosen] =>
        assert (Hchosen : Cascade.in_range chosen)
    end.
    { destruct (truthy af && fgt (dict_get af "energy") (Fin (1 # 10))) eqn:Haudio.
      - apply andb_true_iff in Haudio as [_ Hgt]. by apply audio_rule_range.
      - destruct (truthy vf); [apply video_rule_range |].
        split; [by left |]. by eexists. }
    apply (combine_rule_range vf af) in Hchosen.
    destruct (combine_rule vf af _) as [ty c]. done.
Qed.

Section Pipeline.
Context `{Imaging} `{Numeric}.

(** A result of an analysis is a result of the rule cascade. *)
Lemma analyze_result_origin (ac : t) (sm : SyncManager.t) (t_classify t_store : Q)
    (a : activity) :
  snd (analyze_current_activity ac sm t_classify t_store) = Some a ->
  exists vf af, a = _rule_based_classification vf af t_classify.
Proof.
  unfold analyze_current_activity.
  destruct (SyncManager.get_sync_data sm) as [[[f |] [pa |]] ts]; try done.
  unfold _classify_activity. destruct (_ && _); [done |].
  simpl. intros [= <-]. eauto.
Qed.

(** X14.  Every result that [analyze_current_activity] returns carries one
    of the five labels of the cascade, a confidence between 0.6 and 0.95,
    the duration 0 and the truncated clock reading as its timestamp. *)
Theorem analysis_result_range (ac : t) (sm : SyncManager.t)
    (t_classify t_store : Q) (a : activity) :
  snd (analyze_current_activity ac sm t_classify t_store) = Some a ->
  Cascade.in_range (type a, confidence a)
  /\ timestamp a = py_int t_classify /\ duration a = 0.
Proof.
  intros Hres. destruct (analyze_result_origin _ _ _ _ _ Hres) as (vf & af & ->).
  apply rule_based_range.
Qed.

End Pipeline.

Section Snapshots.
Context `{Imaging} `{Numeric}.

Lemma process_audio_nonempty (a : list Z) (pa : list fval) :
  StreamProcessor.process_audio (Some a) = Some pa -> length pa = length a /\ pa <> [].
Proof.
  unfold StreamProcessor.process_audio.
  destruct a as [| x rest]; [done |]. simpl Nat.eqb. cbv iota. intros [= <-].
  split; [| done]. first [apply length_map | simpl; by rewrite length_map].
Qed.

(** The snapshot of the loop holds nothing, or a frame and a non-empty
    audio window. *)
Lemma run_sync_populated (ticks : list SyncManager.tick_input) :
  let sm := SyncManager.run_sync SyncManager.init ticks in
  SyncManager.empty_snapshot sm
  \/ exists f pa, SyncManager.current_video_frame sm = Some f
                  /\ SyncManager.current_audio_data sm = Some pa /\ pa <> [].
Proof.
  induction ticks as [| i ticks IH] using rev_ind; cbv zeta in *.
  - left. by split.
  - rewrite SyncFacts.run_sync_snoc.
    destruct (SyncFacts.sync_tick_cases
                (SyncManager.run_sync SyncManager.init ticks) i) as [Hsame | Hw];
      cbv zeta in *.
    + by rewrite Hsame.
    + right. destruct Hw as (f & a & pf & pa & _ & _ & _ & Hpa & Hf & Ha & _).
      exists pf, pa. split; [done |]. split; [done |].
      by destruct (process_audio_nonempty a pa Hpa).
Qed.

Lemma audio_features_truthy (pa : list fval) :
  pa <> [] -> truthy (_extract_audio_features (Some pa)) = true.
Proof.
  intros Hne. destruct pa as [| x rest]; [done |].
  apply truthy_true. unfold _extract_audio_features.
  unfold StreamProcessor.extract_audio_features. simpl Nat.eqb. cbv iota.
  apply insert_non_empty.
Qed.

(** X15.  Whenever the snapshot of the sync loop holds audio, an analysis
    of it returns a result and stores it with the clock reading taken under
    the lock: a populated snapshot is never left unclassified, whatever the
    frame and the samples are. *)
Theorem populated_snapshot_is_classified (ticks : list SyncManager.tick_input)
    (ac : t) (t_classify t_store : Q) :
  let sm := SyncManager.run_sync SyncManager.init ticks in
  is_Some (SyncManager.current_audio_data sm) ->
  exists a,
    analyze_current_activity ac sm t_classify t_store
    = ({| last_activity := Some a; last_analysis_time := t_store |}, Some a).
Proof.
  intros sm Hsome.
  destruct (run_sync_populated ticks) as [[_ Hnone] | (f & pa & Hf & Ha & Hne)];
    fold sm in Hnone || fold sm in Hf, Ha.
  - rewrite Hnone in Hsome. by destruct Hsome.
  - unfold analyze_current_activity, SyncManager.get_sync_data.
    rewrite Hf, Ha.
    rewrite ClassifierFacts.classify_some by (right; by apply audio_features_truthy).
    eauto.
Qed.

(** X16.  On a snapshot of the sync loop, audio is available only together
    with video: [is_audio_available] implies [is_video_available] whatever
    the video source holds, and the two agree when the video source has no
    frame of its own. *)
Theorem audio_available_with_video (ticks : list SyncManager.tick_input)
    (obs : OBSCapture.t) :
  let sm := SyncManager.run_sync SyncManager.init ticks in
  (SyncReaders.is_audio_available sm = true ->
   SyncReaders.is_video_available sm obs = true)
  /\ (OBSCapture.current_frame obs = None ->
      SyncReaders.is_video_available sm obs = SyncReaders.is_audio_available sm).
Proof.
  intros sm.
  unfold SyncReaders.is_video_available, SyncReaders.is_audio_available,
    SyncReaders.get_current_frame, SyncReaders.get_current_audio,
    OBSCapture.get_current_frame. cbn [fst].
  destruct (run_sync_populated ticks) as [[Hf Ha] | (f & pa & Hf & Ha & _)];
    fold sm in Hf, Ha; rewrite Hf, Ha.
  - split.
    + intros Habs. apply bool_decide_eq_true in Habs. by destruct Habs.
    + by intros ->.
  - split.
    + intros _. apply bool_decide_eq_true. by destruct (OBSCapture.current_frame obs).
    + intros ->. rewrite !bool_decide_eq_true_2; eauto.
Qed.

(** X17.  An iteration of the sync loop that finds a frame and a window
    replaces the whole snapshot: the result does not depend on the snapshot
    before, [get_sync_data] returns the processed pair with the clock
    reading of this iteration, and the stored window has as many samples
    as the window read. *)
Theorem sync_tick_overwrites (sm sm' : SyncManager.t) (obs : OBSCapture.t)
    (pa : PyAudioCapture.t) (now : Q) (f : Frame) (a : list Z) :
  OBSCapture.current_frame obs = Some f ->
  PyAudioCapture.get_latest_audio pa 500 = Some a ->
  SyncManager.sync_tick sm obs pa now = SyncManager.sync_tick sm' obs pa now
  /\ exists pf window,
       SyncManager.get_sync_data (SyncManager.sync_tick sm obs pa now)
         = (Some pf, Some window, now)
       /\ StreamProcessor.process_video (Some f) = Some pf
       /\ length window = length a.
Proof.
  intros Hf Ha. unfold SyncManager.sync_tick, OBSCapture.get_current_frame.
  rewrite Hf, Ha. split; [done |].
  destruct (StreamFacts.process_audio_some a) as (window & Hw).
  { by eapply BufferFacts.get_latest_audio_nonempty. }
  exists (default f (pil_resize_enhance f)), window.
  unfold SyncManager.get_sync_data.
  cbn [SyncManager.current_video_frame SyncManager.current_audio_data
       SyncManager.last_sync_time StreamProcessor.process_video].
  rewrite Hw. split; [done |]. split; [done |].
  by destruct (process_audio_nonempty a window Hw).
Qed.

End Snapshots.

Section Published.
Context `{Imaging} `{Numeric}.

(** Whatever the analysis has stored came out of the rule cascade. *)
Lemma run_analysis_origin (cycles : list cycle_input) :
  forall ac : t,
    (forall a, last_activity ac = Some a ->
               exists vf af now, a = _rule_based_classification vf af now) ->
    forall a, last_activity (run_analysis ac cycles) = Some a ->
              exists vf af now, a = _rule_based_classification vf af now.
Proof.
  induction cycles as [| c cycles IH]; intros ac Hac; [done |].
  simpl. apply IH. intros a Ha. unfold analysis_step in Ha.
  destruct (AnalysisFacts.analyze_cases ac (cycle_sync c) (cycle_classify_time c)
              (cycle_store_time c)) as [Hnone | (r & Hsome)].
  - rewrite Hnone in Ha. by apply Hac.
  - pose proof (analyze_result_origin ac (cycle_sync c) (cycle_classify_time c)
                  (cycle_store_time c) r) as Horigin.
    rewrite Hsome in Ha, Horigin. simpl in Ha, Horigin.
    injection Ha as <-. destruct Horigin as (vf & af & ->); [done |]. eauto.
Qed.

(** X18.  The answer of [GET /api/current-activity] after any sequence of
    analysis cycles: it has confidence 1.0 exactly when no result has been
    published yet, in which case it is the default "idle" answer; a
    published result is returned as it is and never has confidence 1.0. *)
Theorem default_answer_is_recognisable (cycles : list cycle_input) (now : Q) :
  let ac := run_analysis init cycles in
  (confidence (ApiRoutes.get_current_activity ac now) = Fin 1
   <-> get_current_activity ac = None)
  /\ (get_current_activity ac = None ->
      ApiRoutes.get_current_activity ac now
      = Activity Label.idle (Fin 1) (py_int now) 0)
  /\ (forall a, get_current_activity ac = Some a ->
                ApiRoutes.get_current_activity ac now = a).
Proof.
  intros ac. unfold ApiRoutes.get_current_activity, get_current_activity.
  pose proof (run_analysis_origin cycles init) as Horigin. fold ac in Horigin.
  destruct (last_activity ac) as [a |] eqn:Hlast.
  - split; [| split; [done | by intros ? [= <-]]].
    split; [| done]. intros Hone.
    destruct (Horigin ltac:(done) a eq_refl) as (vf & af & t0 & ->).
    destruct (rule_based_range vf af t0) as [[_ (c & Hc & _ & Hhi)] _].
    cbn [snd] in Hc. rewrite Hc in Hone. injection Hone as ->. done.
  - split; [done |]. split; [done | done].
Qed.

(** X19.  Digital silence is classified by the video rules alone: the
    normalised window of an all-zero window has an undefined energy, which
    passes neither the audio threshold nor the threshold of the combination
    rule, so the result is the one the video rules give. *)
Theorem silent_window_uses_video_rules (n : nat) (vf : features) (now : Q) :
  vf <> ∅ ->
  exists ys,
    StreamProcessor.process_audio (Some (replicate (S n) 0)) = Some ys
    /\ dict_get (_extract_audio_features (Some ys)) "energy" = NaN
    /\ _classify_activity vf (_extract_audio_features (Some ys)) now
       = Some (Activity (fst (video_rule vf)) (snd (video_rule vf)) (py_int now) 0).
Proof.
  intros Hvf. apply truthy_true in Hvf.
  exists (replicate (S n) NaN).
  assert (Hsilence : StreamProcessor.process_audio (Some (replicate (S n) 0))
                     = Some (replicate (S n) NaN)).
  { unfold StreamProcessor.process_audio. rewrite length_replicate.
    simpl Nat.eqb. cbv iota. rewrite StreamFacts.peak_silence. f_equal.
    generalize (S n). intros m. induction m as [| m IH]; [done |].
    simpl. by rewrite IH. }
  split; [exact Hsilence |].
  set (af := _extract_audio_features (Some (replicate (S n) NaN))).
  assert (Henergy : dict_get af "energy" = NaN).
  { subst af. unfold _extract_audio_features, StreamProcessor.extract_audio_features.
    rewrite length_replicate. simpl Nat.eqb. cbv iota. unfold dict_get.
    do 3 rewrite lookup_insert_ne by done. by rewrite lookup_insert_eq. }
  split; [exact Henergy |].
  assert (Haf : truthy af = true) by (apply audio_features_truthy; done).
  rewrite ClassifierFacts.classify_some by by left.
  rewrite ClassifierFacts.rule_based_unfold by by left.
  cbv zeta. rewrite Henergy, Haf, Hvf. simpl andb. cbv iota.
  unfold combine_rule. rewrite Haf, Hvf, Henergy. simpl andb.
  by rewrite andb_false_r.
Qed.

End Published.

(** The scenario: two chunks recorded, one iteration of the sync loop, one
    analysis.  The window is [100, -200, 50, 25], normalised to
    [1/2, -1, 1/4, 1/8]; the result is "video-call" at 0.95. *)
Lemma analysis_result_range_witness :
  let sm := @SyncManager.run_sync Demo.imaging SyncManager.init [Scenario.tick] in
  exists a,
    snd (@analyze_current_activity Demo.imaging Demo.numeric init sm 5 6) = Some a
    /\ type a = Label.video_call
    /\ Cascade.in_range (type a, confidence a)
    /\ timestamp a = py_int 5 /\ duration a = 0.
Proof.
  intros sm. eexists. split; [reflexivity |]. split; [reflexivity |].
  exact (@analysis_result_range Demo.imaging Demo.numeric init sm 5 6 _ eq_refl).
Defined.

Lemma populated_snapshot_is_classified_witness :
  let sm := @SyncManager.run_sync Demo.imaging SyncManager.init [Scenario.tick] in
  is_Some (SyncManager.current_audio_data sm)
  /\ exists a,
       @analyze_current_activity Demo.imaging Demo.numeric init sm 5 6
       = ({| last_activity := Some a; last_analysis_time := 6 |}, Some a).
Proof.
  intros sm.
  assert (Hsome : is_Some (SyncManager.current_audio_data sm)) by (eexists; reflexivity).
  exact (conj Hsome
           (@populated_snapshot_is_classified Demo.imaging Demo.numeric
              [Scenario.tick] init 5 6 Hsome)).
Defined.

Lemma audio_available_with_video_witness :
  let sm := @SyncManager.run_sync Demo.imaging SyncManager.init [Scenario.tick] in
  let dark := @OBSCapture.Make Demo.imaging None 0 in
  @SyncReaders.is_audio_available Demo.imaging sm = true
  /\ @SyncReaders.is_video_available Demo.imaging sm dark = true.
Proof.
  intros sm dark.
  assert (Haudio : @SyncReaders.is_audio_available Demo.imaging sm = true)
    by reflexivity.
  destruct (@audio_available_with_video Demo.imaging [Scenario.tick] dark)
    as [Himp _].
  exact (conj Haudio (Himp Haudio)).
Defined.

Lemma sync_tick_overwrites_witness :
  let old := @SyncManager.Make Demo.imaging (Some 7%nat) (Some [Fin 1]) 3 in
  @OBSCapture.current_frame Demo.imaging Scenario.video = Some 1%nat
  /\ PyAudioCapture.get_latest_audio Scenario.recorded 500 = Some [100; -200; 50; 25]
  /\ @SyncManager.sync_tick Demo.imaging old Scenario.video Scenario.recorded 4
     = @SyncManager.sync_tick Demo.imaging SyncManager.init Scenario.video
         Scenario.recorded 4.
Proof.
  intros old.
  assert (Hf : @OBSCapture.current_frame Demo.imaging Scenario.video = Some 1%nat)
    by reflexivity.
  assert (Ha : PyAudioCapture.get_latest_audio Scenario.recorded 500
               = Some [100; -200; 50; 25]) by reflexivity.
  destruct (@sync_tick_overwrites Demo.imaging old SyncManager.init Scenario.video
              Scenario.recorded 4 1%nat _ Hf Ha) as [Hsame _].
  exact (conj Hf (conj Ha Hsame)).
Defined.

Lemma silent_window_uses_video_rules_witness :
  let vf : features :=
    <["std_intensity" := Fin 60]> {["mean_intensity" := Fin 120]} in
  vf <> ∅
  /\ exists ys,
       StreamProcessor.process_audio (Some (replicate 4 0)) = Some ys
       /\ dict_get (@_extract_audio_features Demo.numeric (Some ys)) "energy" = NaN
       /\ _classify_activity vf (@_extract_audio_features Demo.numeric (Some ys)) 0
          = Some (Activity (fst (video_rule vf)) (snd (video_rule vf)) (py_int 0) 0).
Proof.
  intros vf.
  assert (Hne : vf <> ∅) by (apply truthy_true; reflexivity).
  exact (conj Hne (@silent_window_uses_video_rules Demo.numeric 3 vf 0 Hne)).
Defined.

End PipelineFacts.

(** ** The retry loop of the external service *)

Module RetryFacts.
Import ExternalService.

Section Retry.
Context {Response : Type}.
Variable request : nat -> option Response.

Lemma first_success_some (n : nat) :
  forall (attempt k : nat) (r : Response),
    first_success request attempt n = Some (k, r) ->
    (attempt <= k < attempt + n)%nat /\ request k = Some r
    /\ forall j, (attempt <= j < k)%nat -> request j = None.
Proof.
  induction n as [| n IH]; intros attempt k r Hfirst; [done |].
  simpl in Hfirst. destruct (request attempt) as [r0 |] eqn:Hreq.
  - injection Hfirst as <- <-. split; [lia |]. split; [done |]. intros j Hj. lia.
  - destruct (IH _ _ _ Hfirst) as (Hk & Hr & Hbefore).
    split; [lia |]. split; [done |]. intros j Hj.
    destruct (decide (j = attempt)) as [-> | Hne]; [done |]. apply Hbefore. lia.
Qed.

Lemma first_success_none (n : nat) :
  forall attempt : nat,
    first_success request attempt n = None ->
    forall j, (attempt <= j < attempt + n)%nat -> request j = None.
Proof.
  induction n as [| n IH]; intros attempt Hfirst j Hj; [lia |].
  simpl in Hfirst. destruct (request attempt) as [r0 |] eqn:Hreq; [done |].
  destruct (decide (j = attempt)) as [-> | Hne]; [done |].
  apply (IH (S attempt)); [done | lia].
Qed.

Lemma spaced_requests_step (first n : nat) :
  spaced_requests first (S (S n))
  = Request first :: Sleep :: spaced_requests (S first) (S n).
Proof. done. Qed.

(** The loop against its description: the requests up to the first success,
    or all of them, with a sleep between two requests. *)
Lemma retry_loop_spaced (retry_count : Z) (remaining : nat) :
  forall attempt : nat,
    Z.of_nat (attempt + remaining) = retry_count ->
    retry_loop request retry_count attempt remaining
    = match first_success request attempt remaining with
      | Some (k, r) => (Some r, spaced_requests attempt (S (k - attempt)))
      | None => (None, spaced_requests attempt remaining)
      end.
Proof.
  induction remaining as [| remaining IH]; intros attempt Hcount; [done |].
  cbn [retry_loop first_success].
  destruct (request attempt) as [r |] eqn:Hreq.
  - by rewrite Nat.sub_diag.
  - destruct remaining as [| remaining].
    + replace (Z.of_nat attempt <? retry_count - 1) with false
        by (symmetry; apply Z.ltb_ge; lia).
      done.
    + replace (Z.of_nat attempt <? retry_count - 1) with true
        by (symmetry; apply Z.ltb_lt; lia).
      rewrite IH by lia.
      destruct (first_success request (S attempt) (S remaining))
        as [[k r] |] eqn:Hfirst.
      * destruct (first_success_some _ _ _ _ Hfirst) as (Hk & _).
        replace (k - attempt)%nat with (S (k - S attempt)) by lia.
        by rewrite spaced_requests_step.
      * by rewrite spaced_requests_step.
Qed.

(** X20.  The retry policy of [send_activity].  The call returns the answer of the first
    request that succeeds among the first [retry_count], after exactly the
    requests up to that one; it returns [None] exactly when all
    [retry_count] requests fail (or [retry_count] is not positive), after
    exactly that many requests.  Two consecutive requests are separated by
    one sleep, and no sleep follows the last request. *)
Theorem send_activity_policy (retry_count : Z) :
  let n := Z.to_nat retry_count in
  let '(result, actions) := send_activity request retry_count in
  (result = None <-> forall j, (j < n)%nat -> request j = None)
  /\ (forall r, result = Some r ->
        exists k, (k < n)%nat /\ request k = Some r
                  /\ (forall j, (j < k)%nat -> request j = None)
                  /\ actions = spaced_requests 0 (S k))
  /\ (result = None -> actions = spaced_requests 0 n).
Proof.
  intros n. unfold send_activity. fold n.
  destruct (decide (0 < retry_count)) as [Hpos | Hneg].
  - rewrite retry_loop_spaced by (subst n; lia).
    destruct (first_success request 0 n) as [[k r] |] eqn:Hfirst.
    + destruct (first_success_some _ _ _ _ Hfirst) as (Hk & Hr & Hbefore).
      split; [| split].
      * split; [done |]. intros Hall. rewrite Hall in Hr by lia. done.
      * intros r' [= <-]. exists k. split; [lia |]. split; [done |].
        split; [intros j Hj; apply Hbefore; lia |]. by rewrite Nat.sub_0_r.
      * done.
    + pose proof (first_success_none _ _ Hfirst) as Hall.
      split; [| split]; try done.
      split; [| done]. intros _ j Hj. apply Hall. lia.
  - replace n with 0%nat by (subst n; lia). simpl.
    split; [| split]; try done. split; [| done]. intros _ j Hj. lia.
Qed.

End Retry.

(** Three attempts allowed, the first two fail: three requests, two sleeps,
    the third answer is returned. *)
Lemma send_activity_policy_witness :
  let request := fun attempt : nat =>
    if (attempt <? 2)%nat then None else Some "ok" in
  send_activity request 3
  = (Some "ok", [Request 0; Sleep; Request 1; Sleep; Request 2])
  /\ exists k, (k < 3)%nat /\ request k = Some "ok"
               /\ [Request 0; Sleep; Request 1; Sleep; Request 2]
                  = spaced_requests 0 (S k).
Proof.
  intros request. split; [reflexivity |].
  pose proof (send_activity_policy request 3) as Hpolicy.
  change (send_activity request 3)
    with (Some "ok", [Request 0; Sleep; Request 1; Sleep; Request 2]) in Hpolicy.
  cbv zeta in Hpolicy. destruct Hpolicy as (_ & Hsome & _).
  destruct (Hsome "ok" eq_refl) as (k & Hk & Hr & _ & Hacts).
  exists k. split; [exact Hk |]. split; [exact Hr | exact Hacts].
Defined.

End RetryFacts.

(** ** The error log *)

Module ErrorLogFacts.
Import ErrorSystem.

Section Log.
Variable make_id : Z -> string -> string.
Variable format_time : Z -> string.

Lemma log_call_errors (es : t) (c : call) :
  0 <= max_errors es ->
  max_errors (log_call make_id format_time es c) = max_errors es
  /\ errors (log_call make_id format_time es c)
     = take (Z.to_nat (max_errors es)) (entry_of make_id format_time c :: errors es).
Proof.
  intros Hmax. unfold log_call, log_error. cbn [fst max_errors errors].
  split; [done |]. fold (entry_of make_id format_time c).
  destruct (_ <? _) eqn:Hlen.
  - unfold prefix. by replace (0 <=? max_errors es) with true
      by (symmetry; by apply Z.leb_le).
  - apply Z.ltb_ge in Hlen. rewrite take_ge; [done |]. lia.
Qed.

Lemma take_cons_take {A} (n : nat) (x : A) (l : list A) :
  take n (x :: take n l) = take n (x :: l).
Proof.
  destruct n as [| n]; [done |]. simpl. f_equal.
  rewrite take_take. f_equal. lia.
Qed.

Lemma log_calls_errors (calls : list call) :
  forall (es : t) (l : list error),
    0 <= max_errors es ->
    errors es = take (Z.to_nat (max_errors es)) l ->
    max_errors (foldl (log_call make_id format_time) es calls) = max_errors es
    /\ errors (foldl (log_call make_id format_time) es calls)
       = take (Z.to_nat (max_errors es))
              (rev (map (entry_of make_id format_time) calls) ++ l).
Proof.
  induction calls as [| c calls IH]; intros es l Hmax Herrors; [done |].
  destruct (log_call_errors es c Hmax) as [Hm He].
  cbn [foldl map rev].
  destruct (IH (log_call make_id format_time es c)
              (entry_of make_id format_time c :: l)) as [Hm' He'].
  - by rewrite Hm.
  - rewrite Hm, He, Herrors. apply take_cons_take.
  - rewrite Hm', He', Hm. split; [done |]. by rewrite <- app_assoc.
Qed.

(** X21.  The error log is bounded and ordered: after one or more calls of
    [log_error] on a log whose [max_errors] is not negative, the log holds
    the entries of these calls, newest first, followed by the entries it
    held before, cut to [max_errors] entries; in particular it never holds
    more than [max_errors]. *)
Theorem log_is_bounded_newest_first (es : t) (c : call) (calls : list call) :
  0 <= max_errors es ->
  let es' := foldl (log_call make_id format_time) es (c :: calls) in
  errors es'
    = take (Z.to_nat (max_errors es))
        (rev (map (entry_of make_id format_time) (c :: calls)) ++ errors es)
  /\ Z.of_nat (length (errors es')) <= max_errors es
  /\ max_errors es' = max_errors es.
Proof.
  intros Hmax es'. subst es'. cbn [foldl].
  destruct (log_call_errors es c Hmax) as [Hm He].
  destruct (log_calls_errors calls (log_call make_id format_time es c)
              (entry_of make_id format_time c :: errors es)) as [Hm' He'].
  - by rewrite Hm.
  - by rewrite Hm, He.
  - rewrite Hm in *. split; [| split; [| done]].
    + rewrite He'. cbn [map rev]. by rewrite <- app_assoc.
    + rewrite He', length_take. lia.
Qed.

(** X22.  Logging and reading back: on a log that keeps at least one entry,
    the entry returned by [log_error] is the one [get_errors] returns first,
    with or without a filter on its type; a page never has more than
    [limit] entries, and with a filter every entry of the page has the type
    asked for.  After [clear_errors], which returns the number of entries
    removed, every page is empty. *)
Theorem logged_error_is_read_back (es : t) (error_type message : string)
    (details source : option string) (now : Q) :
  1 <= max_errors es ->
  let '(es', e) := log_error make_id format_time error_type message details source
                     now es in
  get_errors 1 0 None es' = [e]
  /\ get_errors 1 0 (Some error_type) es' = [e]
  /\ (forall limit offset wanted,
        (length (get_errors limit offset wanted es') <= limit)%nat)
  /\ (forall limit offset ty,
        ty <> "" ->
        Forall (fun x => ErrorSystem.error_type x = ty)
               (get_errors limit offset (Some ty) es'))
  /\ snd (clear_errors es') = Z.of_nat (length (errors es'))
  /\ (forall limit offset wanted,
        get_errors limit offset wanted (fst (clear_errors es')) = []).
Proof.
  intros Hmax.
  destruct (log_error make_id format_time error_type message details source now es)
    as [es' e] eqn:Hlog.
  assert (Hhead : exists rest, errors es' = e :: rest).
  { unfold log_error in Hlog. injection Hlog as <- <-. cbn [errors].
    destruct (_ <? _).
    - unfold prefix. replace (0 <=? max_errors es) with true
        by (symmetry; apply Z.leb_le; lia).
      replace (Z.to_nat (max_errors es)) with (S (Z.to_nat (max_errors es - 1)))
        by lia.
      simpl. eauto.
    - eauto. }
  destruct Hhead as (rest & Hrest).
  assert (Htype : ErrorSystem.error_type e = error_type).
  { unfold log_error in Hlog. by injection Hlog as _ <-. }
  split; [| split; [| split; [| split; [| split]]]].
  - unfold get_errors, page. by rewrite Hrest.
  - unfold get_errors, page. destruct (bool_decide (error_type = "")).
    + by rewrite Hrest.
    + rewrite Hrest, filter_cons, decide_True by done. done.
  - intros limit offset wanted. unfold get_errors, page.
    rewrite length_take. lia.
  - intros limit offset ty Hty. unfold get_errors, page.
    rewrite bool_decide_eq_false_2 by done.
    apply Forall_take, Forall_drop. apply Forall_forall. intros x Hx.
    by apply list_elem_of_filter in Hx as [Hx _].
  - done.
  - intros limit offset [ty |]; unfold get_errors, page, clear_errors;
      cbn [fst errors]; [| by rewrite drop_nil, take_nil].
    destruct (bool_decide (ty = "")); [by rewrite drop_nil, take_nil |].
    by rewrite filter_nil, drop_nil, take_nil.
Qed.

End Log.

(** A log of at most two entries receives three errors: the two newest are
    kept, newest first. *)
Lemma log_is_bounded_newest_first_witness :
  let make_id := fun (t : Z) (m : string) => m in
  let format_time := fun _ : Z => "" in
  let es := {| max_errors := 2; errors := [] |} in
  let c1 := Call "IOError" "first" None None 10 in
  let c2 := Call "IOError" "second" None None 11 in
  let c3 := Call "ValueError" "third" None None 12 in
  let es' := foldl (log_call make_id format_time) es [c1; c2; c3] in
  0 <= max_errors es
  /\ map message (errors es') = ["third"; "second"]
  /\ Z.of_nat (length (errors es')) <= max_errors es.
Proof.
  intros make_id format_time es c1 c2 c3 es'.
  assert (Hmax : 0 <= max_errors es) by (simpl; lia).
  destruct (log_is_bounded_newest_first make_id format_time es c1 [c2; c3] Hmax)
    as (_ & Hlen & _).
  split; [exact Hmax |]. split; [reflexivity | exact Hlen].
Defined.

Lemma logged_error_is_read_back_witness :
  let make_id := fun (t : Z) (m : string) => m in
  let format_time := fun _ : Z => "" in
  let es := {| max_errors := 100; errors := [] |} in
  1 <= max_errors es
  /\ let '(es', e) :=
       log_error make_id format_time "IOError" "disk" None (Some "capture") 10 es in
     get_errors 1 0 None es' = [e]
     /\ get_errors 1 0 (Some "IOError") es' = [e].
Proof.
  intros make_id format_time es.
  assert (Hmax : 1 <= max_errors es) by (simpl; lia).
  split; [exact Hmax |].
  pose proof (logged_error_is_read_back make_id format_time es "IOError" "disk"
                None (Some "capture") 10 Hmax) as Hback.
  destruct (log_error make_id format_time "IOError" "disk" None (Some "capture") 10 es)
    as [es' e].
  destruct Hback as (H1 & H2 & _). split; [exact H1 | exact H2].
Defined.

End ErrorLogFacts.

(** ** The application as a whole *)

Module AppFacts.

Section Wired.
Context `{Imaging} `{Numeric}.

(** What stays true of the application while it runs. *)
Lemma step_keeps_idle (app : App.t) (e : App.event) :
  OBSConnection.is_capturing (SyncLifecycle.obs_capture (App.sync app)) = false ->
  OBSCapture.current_frame (App.frames app) = None ->
  App.snapshot app = SyncManager.init ->
  ActivityClassifier.last_activity (App.classifier app) = None ->
  OBSConnection.is_capturing
    (SyncLifecycle.obs_capture (App.sync (App.step app e))) = false
  /\ OBSCapture.current_frame (App.frames (App.step app e)) = None
  /\ App.snapshot (App.step app e) = SyncManager.init
  /\ ActivityClassifier.last_activity (App.classifier (App.step app e)) = None.
Proof.
  intros Hcap Hframe Hsnap Hlast.
  destruct e as [data | shot now | now | t1 t2 | t1 t2]; unfold App.step.
  - destruct (PyAudioCapture.is_streaming _); [| done].
    destruct (PyAudioDevice.callback _ _); done.
  - by rewrite Hcap.
  - destruct (SyncLifecycle.is_running _); [| done].
    cbn [App.set_snapshot App.sync App.frames App.snapshot App.classifier].
    unfold SyncManager.sync_tick, OBSCapture.get_current_frame.
    by rewrite Hframe.
  - destruct (App.is_analyzing app); [| done].
    cbn [App.set_classifier App.sync App.frames App.snapshot App.classifier].
    by rewrite Hsnap.
  - cbn [App.set_classifier App.sync App.frames App.snapshot App.classifier].
    by rewrite Hsnap.
Qed.

Lemma run_keeps_idle (events : list App.event) :
  forall app : App.t,
    OBSConnection.is_capturing (SyncLifecycle.obs_capture (App.sync app)) = false ->
    OBSCapture.current_frame (App.frames app) = None ->
    App.snapshot app = SyncManager.init ->
    ActivityClassifier.last_activity (App.classifier app) = None ->
    OBSCapture.current_frame (App.frames (App.run app events)) = None
    /\ App.snapshot (App.run app events) = SyncManager.init
    /\ ActivityClassifier.last_activity (App.classifier (App.run app events)) = None.
Proof.
  induction events as [| e events IH]; intros app Hcap Hframe Hsnap Hlast; [done |].
  destruct (step_keeps_idle app e Hcap Hframe Hsnap Hlast) as (H1 & H2 & H3 & H4).
  unfold App.run. cbn [foldl]. by apply IH.
Qed.

(** X23.  The application as [init_app] and [start_app] wire it never
    classifies anything.  Whatever OBS answers, whatever the audio device
    does and whatever happens afterwards (driver callbacks, iterations of
    the three loops, requests [POST /api/classify]), the video capture has
    no frame, [get_sync_data] returns [(None, None, 0)], no activity is
    ever published, and [GET /api/current-activity] gives the default
    answer: the constructor of the video capture finds no source, so
    [start] never starts the capture loop, the sync loop never finds a
    frame, and every analysis returns [None]. *)
Theorem wired_application_never_classifies (b : OBSConnection.backend)
    (device : Z -> PyAudioDevice.open_result) (events : list App.event) (now : Q) :
  let app := App.run (App.start_app device (App.init_app b)) events in
  OBSCapture.current_frame (App.frames app) = None
  /\ SyncManager.get_sync_data (App.snapshot app) = (None, None, 0%Q)
  /\ ActivityClassifier.get_current_activity (App.classifier app) = None
  /\ ApiRoutes.get_current_activity (App.classifier app) now
     = Activity Label.idle (Fin 1) (py_int now) 0.
Proof.
  intros app.
  destruct (run_keeps_idle events (App.start_app device (App.init_app b)))
    as (Hframe & Hsnap & Hlast); try done.
  - unfold App.start_app, App.init_app, SyncLifecycle.start, SyncLifecycle.init.
    cbn [App.sync SyncLifecycle.is_running SyncLifecycle.obs_capture].
    destruct (LifecycleFacts.init_sources b) as [Hvideo _]. rewrite Hvideo.
    cbn [bool_decide negb head OBSConnection.no_name].
    apply LifecycleFacts.init_not_capturing.
  - fold app in Hframe, Hsnap, Hlast.
    split; [done |]. split; [by rewrite Hsnap |].
    unfold ApiRoutes.get_current_activity, ActivityClassifier.get_current_activity.
    by rewrite Hlast.
Qed.

End Wired.

End AppFacts.
